(** * Character state model and creation-form validation

  A shallow embedding of the character-sheet mutation handlers
  (src/pages/CharacterSheet.tsx), the derived-stat functions
  (src/types/character.ts) and the Abilities-stage validation of the
  creation form (src/pages/CharactersPage.tsx), with the properties the
  specification states about them.

  JavaScript numbers are modelled as [Z] where the program only ever
  combines integers, and as [Q] at the two places where it divides or
  multiplies by a fraction before calling [Math.floor]. *)

From Stdlib Require Import ZArith QArith Qround Lia Permutation.
From stdpp Require Import base numbers list strings gmap pretty.

Local Open Scope Z_scope.

(* ===================================================================== *)
(** * JavaScript primitives used by the source                            *)
(* ===================================================================== *)

Module Js.

(** [Math.floor] on the exact value of a numeric expression. *)
Definition Math_floor (x : Q) : Z := Qfloor x.

(** [a / b] on numbers: JavaScript division is not integer division. *)
Definition num_div (a b : Z) : Q := (inject_Z a / inject_Z b)%Q.

(** [x ?? d]: [None] stands for [undefined] / [null]. *)
Definition nullish {A : Type} (x : option A) (d : A) : A :=
  match x with Some v => v | None => d end.

(** [x || d] on a number: [0] is the falsy integer. *)
Definition or_num (x d : Z) : Z := if x =? 0 then d else x.

(** [x || d] on an optional number. *)
Definition or_opt_num (x : option Z) (d : Z) : Z :=
  match x with Some v => or_num v d | None => d end.

(** [!!x] on an optional number. *)
Definition truthy_num (x : option Z) : bool :=
  match x with Some v => negb (v =? 0) | None => false end.

(** [Number.isFinite(raw) ? f(raw) : d] for the value of a numeric
    input: [None] stands for [NaN] and the infinities. *)
Definition if_finite (raw : option Z) (f : Z -> Z) (d : Z) : Z :=
  match raw with Some r => f r | None => d end.

(** A [boolean[]] at run time.  An element is [Some b], or [None] for an
    empty slot (which reads as [undefined]); empty slots only appear
    when a write lands beyond the end of the array. *)
Abbreviation barray := (list (option bool)).

(** Truthiness of an element read: [undefined] is falsy. *)
Definition truthy (v : option bool) : bool :=
  match v with Some b => b | None => false end.

(** The largest array length, [2^32 - 1]. *)
Definition MAX_ARRAY_LENGTH : Z := 4294967295.

(** Whether [i] is an array index (an integer in [0, 2^32 - 2]). *)
Definition is_index (i : Z) : bool := (0 <=? i) && (i <? MAX_ARRAY_LENGTH).

(** [arr[i]] for a numeric [i]: [undefined] outside the array. *)
Definition arr_index {A : Type} (arr : list A) (i : Z) : option A :=
  if is_index i then arr !! Z.to_nat i else None.

(** [arr[i]] on a [boolean[]]; an empty slot reads as [undefined]. *)
Definition arr_get (arr : barray) (i : Z) : option bool :=
  match arr_index arr i with Some v => v | None => None end.

(** [arr[i] = v].  Inside the array the element is replaced.  At or
    beyond the end the array grows to length [i + 1], the skipped
    positions staying empty.  When [i] is not an array index (negative,
    or above [2^32 - 2]) the assignment creates an ordinary property:
    the elements and the length are untouched, and that property is lost
    by the next copy [[...arr]] and by serialisation, so it is not
    represented. *)
Definition arr_set (arr : barray) (i : Z) (v : bool) : barray :=
  if is_index i then
    let n := Z.to_nat i in
    if (n <? length arr)%nat then <[n := Some v]> arr
    else arr ++ replicate (n - length arr) None ++ [Some v]
  else arr.

(** [arr[i] = !arr[i]]. *)
Definition arr_toggle (arr : barray) (i : Z) : barray :=
  arr_set arr i (negb (truthy (arr_get arr i))).

(** [Array(n).fill(v)]: a [RangeError] ([None]) unless [0 <= n < 2^32]. *)
Definition Array_fill (n : Z) (v : bool) : option barray :=
  if (0 <=? n) && (n <=? MAX_ARRAY_LENGTH)
  then Some (replicate (Z.to_nat n) (Some v))
  else None.

(** [while (arr.length < n) arr.push(v)], one iteration per unit of
    fuel. *)
Fixpoint push_while (fuel : nat) (n : Z) (v : bool) (arr : barray) : barray :=
  match fuel with
  | O => arr
  | S fuel' =>
      if Z.of_nat (length arr) <? n
      then push_while fuel' n v (arr ++ [Some v])
      else arr
  end.

(** The padding loop as the program runs it.  [push] on an array of
    length [2^32 - 1] throws, so a bound above that never completes;
    otherwise [n] iterations are enough fuel (see [push_while_spec]). *)
Definition arr_pad (n : Z) (v : bool) (arr : barray) : option barray :=
  if n <=? MAX_ARRAY_LENGTH
  then Some (push_while (Z.to_nat n) n v arr)
  else None.

End Js.

(* ===================================================================== *)
(** * src/types/character.ts                                              *)
(* ===================================================================== *)

Module CharacterTypes.
Import Js.

Record AbilityScores : Type := mkAbilityScores {
  strength : Z;
  dexterity : Z;
  constitution : Z;
  intelligence : Z;
  wisdom : Z;
  charisma : Z
}.

Record InventoryItem : Type := mkInventoryItem {
  item_name : string;
  item_description : option string;
  item_cost : option Q
}.

(** [0 | 1 | 2 | 3]: none, proficient, half, expertise. *)
Inductive ProficiencyLevel : Type := ProfNone | Proficient | Half | Expert.

Record Currency : Type := mkCurrency {
  platinum : option Z;
  gold : option Z;
  silver : option Z;
  copper : option Z
}.

(** The fields of [Character] that none of the handlers below reads or
    writes; every handler copies them with [...character]. *)
Record Profile : Type := mkProfile {
  id : string;
  name : string;
  race : string;
  background : string;
  armor_class : Z;
  initiative : Z;
  equipment : list (string + InventoryItem);
  spells : list string;
  notes : string;
  subclass : option string;
  subrace : option string;
  alignment : string;
  speed : option string;
  size : option string;
  hit_dice : option string;
  attacks : option (list string); (* [Array<any>]: each entry as its JSON text *)
  xp_current : option Z;
  xp_max : option Z;
  saving_throw_proficiencies : option (gmap string ProficiencyLevel);
  skill_proficiencies : option (gmap string ProficiencyLevel);
  armor_proficiencies : option (list string);
  weapon_proficiencies : option (list string);
  tool_proficiencies : option (list string);
  languages : option (list string);
  heroic_inspiration : option bool;
  currency : option Currency
}.

(** [interface Character].  Optional fields ([f?: T]) are options.
    [hit_dice_remaining] is not declared in the interface; the sheet
    reads and writes it through [(character as any)]. *)
Record Character : Type := mkCharacter {
  profile : Profile;
  class : string;
  level : Z;
  ability_scores : AbilityScores;
  hit_points : Z;
  spell_slots : list Z;
  max_hit_points : option Z;
  temp_hp : option Z;
  death_saves_success : option barray;
  death_saves_failure : option barray;
  used_abilities : option (list string);
  spell_slots_used : option (gmap string barray);
  hit_dice_remaining : option Z
}.

(** [Math.floor((score - 10) / 2)] *)
Definition getAbilityModifier (score : Z) : Z :=
  Math_floor (num_div (score - 10) 2).

(** [Math.floor((level - 1) / 4) + 2] *)
Definition getProficiencyBonus (level : Z) : Z :=
  Math_floor (num_div (level - 1) 4) + 2.

(** One [field: value] entry of an object literal that overrides a
    field of a spread character. *)
Inductive Override : Type :=
| set_level (v : Z)
| set_hit_points (v : Z)
| set_max_hit_points (v : Z)
| set_death_saves_success (v : barray)
| set_death_saves_failure (v : barray)
| set_used_abilities (v : list string)
| set_spell_slots_used (v : gmap string barray)
| set_hit_dice_remaining (v : Z).

Definition override (c : Character) (o : Override) : Character :=
  match o with
  | set_level v =>
      mkCharacter (profile c) (class c) v (ability_scores c) (hit_points c)
        (spell_slots c) (max_hit_points c) (temp_hp c)
        (death_saves_success c) (death_saves_failure c) (used_abilities c)
        (spell_slots_used c) (hit_dice_remaining c)
  | set_hit_points v =>
      mkCharacter (profile c) (class c) (level c) (ability_scores c) v
        (spell_slots c) (max_hit_points c) (temp_hp c)
        (death_saves_success c) (death_saves_failure c) (used_abilities c)
        (spell_slots_used c) (hit_dice_remaining c)
  | set_max_hit_points v =>
      mkCharacter (profile c) (class c) (level c) (ability_scores c)
        (hit_points c) (spell_slots c) (Some v) (temp_hp c)
        (death_saves_success c) (death_saves_failure c) (used_abilities c)
        (spell_slots_used c) (hit_dice_remaining c)
  | set_death_saves_success v =>
      mkCharacter (profile c) (class c) (level c) (ability_scores c)
        (hit_points c) (spell_slots c) (max_hit_points c) (temp_hp c)
        (Some v) (death_saves_failure c) (used_abilities c)
        (spell_slots_used c) (hit_dice_remaining c)
  | set_death_saves_failure v =>
      mkCharacter (profile c) (class c) (level c) (ability_scores c)
        (hit_points c) (spell_slots c) (max_hit_points c) (temp_hp c)
        (death_saves_success c) (Some v) (used_abilities c)
        (spell_slots_used c) (hit_dice_remaining c)
  | set_used_abilities v =>
      mkCharacter (profile c) (class c) (level c) (ability_scores c)
        (hit_points c) (spell_slots c) (max_hit_points c) (temp_hp c)
        (death_saves_success c) (death_saves_failure c) (Some v)
        (spell_slots_used c) (hit_dice_remaining c)
  | set_spell_slots_used v =>
      mkCharacter (profile c) (class c) (level c) (ability_scores c)
        (hit_points c) (spell_slots c) (max_hit_points c) (temp_hp c)
        (death_saves_success c) (death_saves_failure c) (used_abilities c)
        (Some v) (hit_dice_remaining c)
  | set_hit_dice_remaining v =>
      mkCharacter (profile c) (class c) (level c) (ability_scores c)
        (hit_points c) (spell_slots c) (max_hit_points c) (temp_hp c)
        (death_saves_success c) (death_saves_failure c) (used_abilities c)
        (spell_slots_used c) (Some v)
  end.

(** [{ ...character, f1: v1, ..., fn: vn }] *)
Definition spread (c : Character) (overrides : list Override) : Character :=
  fold_left override overrides c.

(** The fields of a character, to say which ones an operation leaves
    alone. *)
Inductive Field : Type :=
| f_profile | f_class | f_level | f_ability_scores | f_hit_points
| f_spell_slots | f_max_hit_points | f_temp_hp | f_death_saves_success
| f_death_saves_failure | f_used_abilities | f_spell_slots_used
| f_hit_dice_remaining.

Definition same_field (f : Field) (c c' : Character) : Prop :=
  match f with
  | f_profile => profile c' = profile c
  | f_class => class c' = class c
  | f_level => level c' = level c
  | f_ability_scores => ability_scores c' = ability_scores c
  | f_hit_points => hit_points c' = hit_points c
  | f_spell_slots => spell_slots c' = spell_slots c
  | f_max_hit_points => max_hit_points c' = max_hit_points c
  | f_temp_hp => temp_hp c' = temp_hp c
  | f_death_saves_success => death_saves_success c' = death_saves_success c
  | f_death_saves_failure => death_saves_failure c' = death_saves_failure c
  | f_used_abilities => used_abilities c' = used_abilities c
  | f_spell_slots_used => spell_slots_used c' = spell_slots_used c
  | f_hit_dice_remaining => hit_dice_remaining c' = hit_dice_remaining c
  end.

(** [c'] has the fields of [c], those listed in [changed] apart. *)
Definition same_except (changed : list Field) (c c' : Character) : Prop :=
  forall f, f ∉ changed -> same_field f c c'.

End CharacterTypes.

(* ===================================================================== *)
(** * src/pages/CharacterSheet.tsx                                        *)
(* ===================================================================== *)

(** The event handlers of the sheet, each as a function of the loaded
    character (every handler starts by returning when no character is
    loaded).  A handler that calls [setCharacter(updated)] and
    [saveCharacter(updated)] returns [Some updated]; one that returns, or
    throws, before doing so returns [None], and the state stays as it
    was. *)

Module CharacterSheet.
Import Js CharacterTypes.

(** The [classHitDie] table, which the sheet repeats at each use.  A
    class is one of the names of the creation form or some other plain
    name; the names of [Object.prototype] members, which a lookup in an
    object literal would find inherited, are not class names. *)
Definition classHitDie : gmap string Z :=
  list_to_map
    [("Bard", 8); ("Barbarian", 12); ("Fighter", 10); ("Paladin", 10);
     ("Ranger", 10); ("Cleric", 8); ("Druid", 8); ("Monk", 8);
     ("Rogue", 8); ("Warlock", 8); ("Sorcerer", 6); ("Wizard", 6)].

(** [classHitDie[(character as any).class || character.class] ?? 8] *)
Definition hitDie (c : Character) : Z :=
  nullish (classHitDie !! class c) 8.

(** [const maxHit = character.max_hit_points ?? (character.level * 8)] *)
Definition maxHit (c : Character) : Z :=
  nullish (max_hit_points c) (level c * 8).

(** The state the page keeps after a character is shown. *)
Definition next_state (c : Character) (result : option Character) : Character :=
  nullish result c.

(** [handleUpdate(updates)]: [{ ...character, ...updates }] *)
Definition handleUpdate (updates : list Override) (c : Character)
  : option Character :=
  Some (spread c updates).

(** [onChange] of the "Current HP" input; [raw] is
    [Number(e.target.value)]. *)
Definition currentHp_onChange (raw : option Z) (c : Character)
  : option Character :=
  let v := if_finite raw (fun raw => Z.max 0 (Z.min raw (maxHit c))) 0 in
  handleUpdate [set_hit_points v] c.

(** [onChange] of the "Max HP" input. *)
Definition maxHp_onChange (raw : option Z) (c : Character)
  : option Character :=
  let v := if_finite raw (fun raw => Z.max 1 raw) (level c * 8) in
  let updated := spread c [set_max_hit_points v] in
  let updated :=
    if hit_points updated >? v then override updated (set_hit_points v)
    else updated in
  Some updated.

(** [onClick] of a death-save success button, [i] its position. *)
Definition deathSaveSuccess_onClick (i : Z) (c : Character)
  : option Character :=
  let arr := nullish (death_saves_success c) [Some false; Some false; Some false] in
  let arr := arr_toggle arr i in
  Some (spread c [set_death_saves_success arr]).

(** [onClick] of a death-save failure button. *)
Definition deathSaveFailure_onClick (i : Z) (c : Character)
  : option Character :=
  let arr := nullish (death_saves_failure c) [Some false; Some false; Some false] in
  let arr := arr_toggle arr i in
  Some (spread c [set_death_saves_failure arr]).

(** The two rows of death-save buttons. *)
Inductive SaveKind : Type := success | failure.

Definition toggleDeathSave (kind : SaveKind) (i : Z) (c : Character)
  : option Character :=
  match kind with
  | success => deathSaveSuccess_onClick i c
  | failure => deathSaveFailure_onClick i c
  end.

(** The array a row of buttons is rendered from:
    [character.death_saves_success ?? [false, false, false]]. *)
Definition deathSaves (kind : SaveKind) (c : Character) : barray :=
  nullish
    match kind with
    | success => death_saves_success c
    | failure => death_saves_failure c
    end
    [Some false; Some false; Some false].

(** The field a row of death-save buttons writes. *)
Definition deathSaves_field (kind : SaveKind) : Field :=
  match kind with
  | success => f_death_saves_success
  | failure => f_death_saves_failure
  end.

(** A stored death-save array, when there is one, holds exactly three
    booleans. *)
Definition three_booleans (saves : option barray) : bool :=
  match saves with
  | None => true
  | Some arr =>
      (length arr =? 3)%nat
      && forallb (fun v => match v with Some _ => true | None => false end) arr
  end.

(** The slot count [toggleSpellSlot] resolves for a spell level.
    [spell_slots] is a required array of the character, so its own
    truthiness test always passes. *)
Definition maxSlots (c : Character) (lvl : Z) : Z :=
  match arr_index (spell_slots c) (lvl - 1) with
  | Some n => n
  | None =>
      if (lvl =? 1) && String.eqb (class c) "Bard" && (1 <=? level c)
      then 2 else 0
  end.

(** [toggleSpellSlot(level, slotIndex)] *)
Definition toggleSpellSlot (lvl slotIndex : Z) (c : Character)
  : option Character :=
  let key : string := pretty lvl in
  let existing := nullish (spell_slots_used c) ∅ in
  let maxSlots := maxSlots c lvl in
  arr ← match existing !! key with
        | Some used => Some used
        | None => Array_fill maxSlots false
        end;
  arr ← arr_pad maxSlots false arr;
  let arr := arr_toggle arr slotIndex in
  Some (spread c [set_spell_slots_used (<[key := arr]> existing)]).

(** [onConfirm] of the long-rest dialog. *)
Definition longRest_onConfirm (c : Character) : option Character :=
  let level := or_num (level c) 1 in
  let currentRemaining := nullish (hit_dice_remaining c) level in
  let regain := Z.max 1 (Math_floor (num_div level 2)) in
  let newRemaining := Z.min level (currentRemaining + regain) in
  Some (spread c
          [set_used_abilities [];
           set_spell_slots_used ∅;
           set_hit_points (nullish (max_hit_points c) (level * hitDie c));
           set_hit_dice_remaining newRemaining]).

(** [shortRestInfo], the second piece of state the short-rest dialog
    sets. *)
Record ShortRestInfo : Type := mkShortRestInfo {
  available : Z;
  lastRoll : option Z;
  lastTotal : option Z
}.

(** [Math.floor(Math.random() * die) + 1]; [u] is the value
    [Math.random()] returned, a fraction in [0, 1). *)
Definition rollDie (u : Q) (die : Z) : Z :=
  Math_floor (u * inject_Z die)%Q + 1.

(** [onClick] of "Spend 1 Hit Die". *)
Definition spendHitDie_onClick (u : Q) (c : Character)
  : option (Character * ShortRestInfo) :=
  let level := or_num (level c) 1 in
  let total := level in
  let available := nullish (hit_dice_remaining c) total in
  if available <=? 0 then None else
  let die := hitDie c in
  let roll := rollDie u die in
  let conMod := getAbilityModifier (constitution (ability_scores c)) in
  let totalHeal := Z.max 0 (roll + conMod) in
  let maxHp := nullish (max_hit_points c) (level * 8) in
  let newHp := Z.min maxHp (or_num (hit_points c) 0 + totalHeal) in
  let newAvailable := Z.max 0 (available - 1) in
  Some (spread c [set_hit_points newHp; set_hit_dice_remaining newAvailable],
        mkShortRestInfo newAvailable (Some roll) (Some totalHeal)).

(** [levelUpHPChoice] *)
Inductive HPChoice : Type := average | roll.

(** [onClick] of "Confirm Level Up"; [levelUpHPRoll] is the d8 the
    dialog rolled earlier, or [null].  [None] is the early return after
    the alert that asks to roll or take the average. *)
Definition levelUp_onClick (levelUpHPChoice : HPChoice)
    (levelUpHPRoll : option Z) (c : Character) : option Character :=
  let isBard := String.eqb (class c) "Bard" in
  let conMod := getAbilityModifier (constitution (ability_scores c)) in
  hpIncrease ←
    (if isBard then
       match levelUpHPChoice, levelUpHPRoll with
       | average, _ => Some (5 + conMod)
       | roll, Some rolled => Some (rolled + conMod)
       | roll, None => None
       end
     else Some 0);
  Some (spread c
          (set_level (level c + 1) ::
           if isBard then
             [set_hit_points (hit_points c + hpIncrease);
              set_max_hit_points
                (or_opt_num (max_hit_points c) (hit_points c) + hpIncrease)]
           else [])).

End CharacterSheet.

(* ===================================================================== *)
(** * src/pages/CharactersPage.tsx: the Abilities stage                   *)
(* ===================================================================== *)

Module CharactersPage.
Import Js CharacterTypes.

(** [abilityMethod] *)
Inductive Method : Type := standard | rolled | pointbuy | manual.

(** [creationTab] *)
Inductive Tab : Type :=
  tab_basic | tab_class | tab_background | tab_species | tab_abilities
| tab_review.

(** The part of the creation form's state that the Abilities stage
    reads and writes. *)
Record FormState : Type := mkFormState {
  creationTab : Tab;
  abilityMethod : Method;
  abilities : AbilityScores;
  standardAssigned : gmap string Z;
  pointBuyScores : gmap string Z;
  rolledPool : list Z;
  abilitiesError : option string
}.

Definition STANDARD_ARRAY : list Z := [15; 14; 13; 12; 10; 8].

(** [Object.keys(abilities)] *)
Definition abilityKeys : list string :=
  ["strength"; "dexterity"; "constitution"; "intelligence"; "wisdom";
   "charisma"].

(** [Object.values(abilities)] *)
Definition abilityValues (a : AbilityScores) : list Z :=
  [strength a; dexterity a; constitution a; intelligence a; wisdom a;
   charisma a].

(** [abilities[k]] *)
Definition abilityAt (a : AbilityScores) (k : string) : option Z :=
  (list_to_map (zip abilityKeys (abilityValues a)) : gmap string Z) !! k.

(** [Object.values(m)].  The program only sums or tests these values,
    so the order in which the map yields them does not matter. *)
Definition Object_values (m : gmap string Z) : list Z :=
  (map_to_list m).*2.

(** The cost table of [pointBuyCostFor]. *)
Definition table : gmap Z Z :=
  list_to_map [(9, 1); (10, 1); (11, 1); (12, 1); (13, 1); (14, 2); (15, 2)].

(** [for (let s = 9; s <= score; s++) cost += table[s] ?? 0], one
    iteration per unit of fuel. *)
Fixpoint cost_loop (fuel : nat) (s score cost : Z) : Z :=
  match fuel with
  | O => cost
  | S fuel' =>
      if s <=? score
      then cost_loop fuel' (s + 1) score (cost + nullish (table !! s) 0)
      else cost
  end.

(** [pointBuyCostFor(score)]; the loop runs [score - 8] times. *)
Definition pointBuyCostFor (score : Z) : Z :=
  if score <=? 8 then 0
  else cost_loop (Z.to_nat (score - 8)) 9 score 0.

(** [Object.values(pointBuyScores).reduce((s, v) => s + pointBuyCostFor(v), 0)] *)
Definition pointBuyTotal (scores : gmap string Z) : Z :=
  fold_left (fun s v => s + pointBuyCostFor v) (Object_values scores) 0.

(** [l.forEach(v => counts[v] = (counts[v] ?? 0) + 1)] from [{}] *)
Definition tally (l : list Z) : gmap Z Z :=
  fold_left (fun counts v => <[v := nullish (counts !! v) 0 + 1]> counts) l ∅.

(** [keys.every(k => !!standardAssigned[k])] *)
Definition standardAssignedAll (st : FormState) : bool :=
  forallb (fun k => truthy_num (standardAssigned st !! k)) abilityKeys.

(** [keys.every(k => (abilities[k] ?? 0) > 0)] *)
Definition rolledAssignedAll (st : FormState) : bool :=
  forallb (fun k => nullish (abilityAt (abilities st) k) 0 >? 0) abilityKeys.

(** The loop over [Object.entries(assignedCounts)]: does some assigned
    value occur more often than in the pool. *)
Definition rolledExceedsPool (st : FormState) : bool :=
  let poolCounts := tally (rolledPool st) in
  let assignedCounts := tally (abilityValues (abilities st)) in
  existsb (fun '(val, count) => nullish (poolCounts !! val) 0 <? count)
    (map_to_list assignedCounts).

(** [setAbilitiesError(msg); setCreationTab('abilities'); return false] *)
Definition reject (msg : string) (st : FormState) : bool * FormState :=
  (false,
   mkFormState tab_abilities (abilityMethod st) (abilities st)
     (standardAssigned st) (pointBuyScores st) (rolledPool st) (Some msg)).

(** [setAbilitiesError(null); return true] *)
Definition accept (st : FormState) : bool * FormState :=
  (true,
   mkFormState (creationTab st) (abilityMethod st) (abilities st)
     (standardAssigned st) (pointBuyScores st) (rolledPool st) None).

(** [validateAbilities()]: the verdict and the state it leaves. *)
Definition validateAbilities (st : FormState) : bool * FormState :=
  match abilityMethod st with
  | standard =>
      if negb (standardAssignedAll st)
      then reject "Please assign all standard array values to abilities before continuing" st
      else accept st
  | rolled =>
      if negb (rolledAssignedAll st)
      then reject "Please assign each rolled value to an ability before continuing" st
      else if rolledExceedsPool st
      then reject "Rolled assignments exceed the available rolled values. Adjust assignments." st
      else accept st
  | pointbuy =>
      if pointBuyTotal (pointBuyScores st) >? 27
      then reject "Point buy exceeds available points (27). Adjust scores before continuing." st
      else accept st
  | manual => accept st
  end.

Definition setCreationTab (t : Tab) (st : FormState) : FormState :=
  mkFormState t (abilityMethod st) (abilities st) (standardAssigned st)
    (pointBuyScores st) (rolledPool st) (abilitiesError st).

Section Navigation.
(** The validators of the four earlier stages read form state that is
    not modelled here; [goNext] is modelled for any of them. *)
Variables validateBasic validateClassTab validateBackgroundTab
  validateSpeciesTab : FormState -> bool * FormState.

(** [goNext()].  From the species stage a Halfling reaches the abilities
    stage through a 10 ms timer; the tab it ends on is the same. *)
Definition goNext (st : FormState) : FormState :=
  let advance (validate : FormState -> bool * FormState) (next : Tab) :=
    let '(ok, st') := validate st in
    if ok then setCreationTab next st' else st' in
  match creationTab st with
  | tab_basic => advance validateBasic tab_class
  | tab_class => advance validateClassTab tab_background
  | tab_background => advance validateBackgroundTab tab_species
  | tab_species => advance validateSpeciesTab tab_abilities
  | tab_abilities => advance validateAbilities tab_review
  | tab_review => st
  end.
End Navigation.

(** The values offered by the select of ability [key] under the
    standard array: [STANDARD_ARRAY.filter(v => !used.includes(v) ||
    standardAssigned[key] === v)], [used] being the values assigned to
    the other abilities. *)
Definition standardOptions (assigned : gmap string Z) (key : string)
  : list Z :=
  let used := (filter (fun kv => kv.1 ≠ key) (map_to_list assigned)).*2 in
  filter (fun v => v ∉ used ∨ assigned !! key = Some v) STANDARD_ARRAY.

(** [onChange] of that select:
    [setStandardAssigned({ ...standardAssigned, [key]: Number(e.target.value) })].
    [value] is the chosen option; the placeholder option has the empty
    string as value, and [Number('')] is [0]. *)
Definition standardSelect_onChange (key : string) (value : option Z)
    (assigned : gmap string Z) : gmap string Z :=
  <[key := nullish value 0]> assigned.

(** One use of a select: the ability is one of the six rendered, and the
    value is the placeholder or one of the options rendered for it. *)
Inductive select_step : gmap string Z -> gmap string Z -> Prop :=
| select_placeholder assigned key :
    key ∈ abilityKeys ->
    select_step assigned (standardSelect_onChange key None assigned)
| select_option assigned key v :
    key ∈ abilityKeys ->
    v ∈ standardOptions assigned key ->
    select_step assigned (standardSelect_onChange key (Some v) assigned).

(** The assignments the form can hold: [standardAssigned] starts as
    [{}] and changes only through the selects. *)
Definition selectable : gmap string Z -> Prop := rtc select_step ∅.

(** The value each of the six abilities holds under the standard
    array, in the order of [abilityKeys]; 0 where none is chosen. *)
Definition assignedValues (assigned : gmap string Z) : list Z :=
  (fun k => nullish (assigned !! k) 0) <$> abilityKeys.

(** What the selects maintain: only the six abilities are assigned, each
    the placeholder's 0 or a value of the array, and no array value is
    held by two abilities. *)
Definition well_assigned (assigned : gmap string Z) : Prop :=
  (forall k v, assigned !! k = Some v ->
     k ∈ abilityKeys /\ (v = 0 \/ v ∈ STANDARD_ARRAY))
  /\ (forall k1 k2 v, assigned !! k1 = Some v -> assigned !! k2 = Some v ->
       v <> 0 -> k1 = k2).

(** The spec's reading of a point-buy cost: the sum over [t = 9..s] of
    the per-step cost, 1 for 9..13 and 2 for 14..15. *)
Definition spec_step_cost (t : Z) : Z :=
  if (9 <=? t) && (t <=? 13) then 1
  else if (14 <=? t) && (t <=? 15) then 2
  else 0.

Definition spec_pointBuyCost (s : Z) : Z :=
  foldr (fun t acc => spec_step_cost t + acc) 0 (seqZ 9 (s - 8)).

End CharactersPage.

(* ===================================================================== *)
(** * Sample inputs                                                       *)
(* ===================================================================== *)

Module Samples.
Import Js CharacterTypes CharacterSheet CharactersPage.

Definition blank_profile : Profile :=
  mkProfile "c-1" "Lyra" "Half-Elf" "Entertainer" 12 2 [] [] "" None None
    "Neutral" None None None None None None None None None None None None
    None None.

(** A level-4 bard at 5 of 20 hit points, both first-level slots and
    one long-rest ability used, no hit dice left. *)
Definition tired_bard : Character :=
  mkCharacter blank_profile "Bard" 4 (mkAbilityScores 8 14 14 10 12 15) 5
    [2] (Some 20) None None None (Some ["x"])
    (Some {[ "1" := [Some true; Some true] ]}) (Some 0).

(** A level-1 bard with two declared first-level slots and no
    [spell_slots_used] entry. *)
Definition fresh_bard : Character :=
  mkCharacter blank_profile "Bard" 1 (mkAbilityScores 8 14 14 10 12 15) 10
    [2] (Some 10) None None None None (Some ∅) None.

(** The same bard with both first-level slots recorded as unused. *)
Definition rested_bard : Character :=
  spread fresh_bard
    [set_spell_slots_used {[ "1" := [Some false; Some false] ]}].

(** The tired bard with two hit dice left. *)
Definition bard_with_dice : Character :=
  spread tired_bard [set_hit_dice_remaining 2].

(** The tired bard with one death-save success marked. *)
Definition dying_bard : Character :=
  spread tired_bard
    [set_death_saves_success [Some true; Some false; Some false]].

(** A character at 15 of 20 hit points. *)
Definition wounded : Character :=
  spread tired_bard [set_hit_points 15].

(** The Abilities stage in standard-array mode with a given
    assignment. *)
Definition standard_form (assigned : gmap string Z) : FormState :=
  mkFormState tab_abilities standard (mkAbilityScores 10 10 10 10 10 10)
    assigned
    (list_to_map (zip abilityKeys [8; 8; 8; 8; 8; 8])) [] None.

(** The Abilities stage in point-buy mode with given scores. *)
Definition pointbuy_form (scores : list Z) : FormState :=
  mkFormState tab_abilities pointbuy (mkAbilityScores 10 10 10 10 10 10) ∅
    (list_to_map (zip abilityKeys scores)) [] None.

(** Every ability given the value 15. *)
Definition all_fifteen : gmap string Z :=
  list_to_map (zip abilityKeys [15; 15; 15; 15; 15; 15]).

(** The array assigned in order. *)
Definition in_order : gmap string Z :=
  list_to_map (zip abilityKeys STANDARD_ARRAY).

End Samples.

(* ===================================================================== *)
(** * src/pages/CharacterSheet.tsx: the remaining handlers                *)
(* ===================================================================== *)

Module SheetHandlers.
Import Js CharacterTypes CharacterSheet.

(** [{ ...character, temp_hp: v }] *)
Definition with_temp_hp (v : Z) (c : Character) : Character :=
  mkCharacter (profile c) (class c) (level c) (ability_scores c)
    (hit_points c) (spell_slots c) (max_hit_points c) (Some v)
    (death_saves_success c) (death_saves_failure c) (used_abilities c)
    (spell_slots_used c) (hit_dice_remaining c).

(** A character with the given values for the fields kept in
    [profile]. *)
Definition with_profile (p : Profile) (c : Character) : Character :=
  mkCharacter p (class c) (level c) (ability_scores c)
    (hit_points c) (spell_slots c) (max_hit_points c) (temp_hp c)
    (death_saves_success c) (death_saves_failure c) (used_abilities c)
    (spell_slots_used c) (hit_dice_remaining c).

(** [{ ...character, equipment: v }] *)
Definition with_equipment (v : list (string + InventoryItem)) (c : Character)
  : Character :=
  let p := profile c in
  with_profile
    (mkProfile (id p) (name p) (race p) (background p) (armor_class p)
       (initiative p) v (spells p) (notes p) (subclass p) (subrace p)
       (alignment p) (speed p) (size p) (hit_dice p) (attacks p)
       (xp_current p) (xp_max p) (saving_throw_proficiencies p)
       (skill_proficiencies p) (armor_proficiencies p)
       (weapon_proficiencies p) (tool_proficiencies p) (languages p)
       (heroic_inspiration p) (currency p)) c.

(** [{ ...character, spells: v }] *)
Definition with_spells (v : list string) (c : Character) : Character :=
  let p := profile c in
  with_profile
    (mkProfile (id p) (name p) (race p) (background p) (armor_class p)
       (initiative p) (equipment p) v (notes p) (subclass p) (subrace p)
       (alignment p) (speed p) (size p) (hit_dice p) (attacks p)
       (xp_current p) (xp_max p) (saving_throw_proficiencies p)
       (skill_proficiencies p) (armor_proficiencies p)
       (weapon_proficiencies p) (tool_proficiencies p) (languages p)
       (heroic_inspiration p) (currency p)) c.

(** [{ ...character, currency: v }] *)
Definition with_currency (v : Currency) (c : Character) : Character :=
  let p := profile c in
  with_profile
    (mkProfile (id p) (name p) (race p) (background p) (armor_class p)
       (initiative p) (equipment p) (spells p) (notes p) (subclass p)
       (subrace p) (alignment p) (speed p) (size p) (hit_dice p) (attacks p)
       (xp_current p) (xp_max p) (saving_throw_proficiencies p)
       (skill_proficiencies p) (armor_proficiencies p)
       (weapon_proficiencies p) (tool_proficiencies p) (languages p)
       (heroic_inspiration p) (Some v)) c.

(** [toggleUsedAbility(abilityId)] *)
Definition toggleUsedAbility (abilityId : string) (c : Character)
  : option Character :=
  let usedAbilities := nullish (used_abilities c) [] in
  let isUsed := bool_decide (abilityId ∈ usedAbilities) in
  Some (spread c
          [set_used_abilities
             (if isUsed
              then filter (fun id => id ≠ abilityId) usedAbilities
              else usedAbilities ++ [abilityId])]).

(** The list the sheet reads: [character.used_abilities || []]. *)
Definition usedList (c : Character) : list string :=
  nullish (used_abilities c) [].

(** [arr.filter((_, i) => i !== index)] *)
Definition filter_out_index {A : Type} (index : Z) (arr : list A) : list A :=
  (List.filter (fun ix => negb (Z.of_nat ix.1 =? index))
     (zip (seq 0 (length arr)) arr)).*2.

(** The [type] of [pendingDeleteItem]. *)
Inductive PendingType : Type := pending_equipment | pending_spell.

(** [confirmRemoveItem()]; [pendingDeleteItem] is [null] or a type and an
    index.  The handler also sets [pendingDeleteItem] back to [null]. *)
Definition confirmRemoveItem (pendingDeleteItem : option (PendingType * Z))
    (c : Character) : option Character :=
  match pendingDeleteItem with
  | None => None
  | Some (pending_equipment, index) =>
      Some (with_equipment (filter_out_index index (equipment (profile c))) c)
  | Some (pending_spell, index) =>
      Some (with_spells (filter_out_index index (spells (profile c))) c)
  end.

(** [onChange] of the "Temporary HP" input. *)
Definition tempHp_onChange (raw : option Z) (c : Character)
  : option Character :=
  let v := if_finite raw (fun raw => Z.max 0 raw) 0 in
  Some (with_temp_hp v c).

(** The four coins of [currency]. *)
Inductive Coin : Type := platinum_coin | gold_coin | silver_coin | copper_coin.

(** [character.currency?.gold ?? 0] and its three siblings. *)
Definition coins (coin : Coin) (c : Character) : Z :=
  match currency (profile c) with
  | None => 0
  | Some cur =>
      nullish
        match coin with
        | platinum_coin => platinum cur
        | gold_coin => gold cur
        | silver_coin => silver cur
        | copper_coin => copper cur
        end 0
  end.

(** [onChange] of the four currency inputs, which differ only in the coin
    they write.  [parsed] is [parseInt(e.target.value)], [None] standing
    for [NaN]; [parsed || 0] treats [NaN] and 0 alike. *)
Definition currency_onChange (coin : Coin) (parsed : option Z) (c : Character)
  : option Character :=
  let val := Z.max 0 (or_opt_num parsed 0) in
  let kept (own : Coin) : option Z := Some (coins own c) in
  Some (with_currency
          match coin with
          | platinum_coin =>
              mkCurrency (Some val) (kept gold_coin) (kept silver_coin)
                (kept copper_coin)
          | gold_coin =>
              mkCurrency (kept platinum_coin) (Some val) (kept silver_coin)
                (kept copper_coin)
          | silver_coin =>
              mkCurrency (kept platinum_coin) (kept gold_coin) (Some val)
                (kept copper_coin)
          | copper_coin =>
              mkCurrency (kept platinum_coin) (kept gold_coin)
                (kept silver_coin) (Some val)
          end c).

(** [effectiveModifier(baseMod, profState, profBonus)] *)
Definition effectiveModifier (baseMod profState profBonus : Z) : Z :=
  let add :=
    if profState =? 1 then profBonus
    else if profState =? 2 then Math_floor (num_div profBonus 2)
    else if profState =? 3 then profBonus * 2
    else 0 in
  baseMod + add.

(** [onClick] of the dialog's "Roll d8":
    [setLevelUpHPRoll(Math.floor(Math.random() * 8) + 1)]. *)
Definition rollD8_onClick (u : Q) : option Z := Some (rollDie u 8).

(** The long rest confirmed [n] times in a row. *)
Definition longRests (n : nat) (c : Character) : Character :=
  Nat.iter n (fun c => next_state c (longRest_onConfirm c)) c.

(** "Spend 1 Hit Die" pressed once for each value of the random source
    in [us]. *)
Definition spendHitDice (us : list Q) (c : Character) : Character :=
  fold_left (fun c u => next_state c (fst <$> spendHitDie_onClick u c)) us c.

(** One use of the sheet: any of its handlers, with the arguments the
    page can pass (a death-save button exists for each position of the
    array shown; the random source yields a fraction in [0, 1); the
    level-up dialog holds no roll or one made by its own button). *)
Inductive sheet_edit : Character -> Character -> Prop :=
| edit_current_hp raw c c' :
    currentHp_onChange raw c = Some c' -> sheet_edit c c'
| edit_max_hp raw c c' :
    maxHp_onChange raw c = Some c' -> sheet_edit c c'
| edit_temp_hp raw c c' :
    tempHp_onChange raw c = Some c' -> sheet_edit c c'
| edit_death_save kind i c c' :
    0 <= i < Z.of_nat (length (deathSaves kind c)) ->
    toggleDeathSave kind i c = Some c' -> sheet_edit c c'
| edit_used_ability abilityId c c' :
    toggleUsedAbility abilityId c = Some c' -> sheet_edit c c'
| edit_spell_slot lvl slotIndex c c' :
    toggleSpellSlot lvl slotIndex c = Some c' -> sheet_edit c c'
| edit_remove_item pending c c' :
    confirmRemoveItem pending c = Some c' -> sheet_edit c c'
| edit_currency coin parsed c c' :
    currency_onChange coin parsed c = Some c' -> sheet_edit c c'
| edit_long_rest c c' :
    longRest_onConfirm c = Some c' -> sheet_edit c c'
| edit_spend_hit_die u c c' info :
    (0 <= u)%Q -> (u < 1)%Q ->
    spendHitDie_onClick u c = Some (c', info) -> sheet_edit c c'
| edit_level_up_average rolled c c' :
    levelUp_onClick average rolled c = Some c' -> sheet_edit c c'
| edit_level_up_roll u c c' :
    (0 <= u)%Q -> (u < 1)%Q ->
    levelUp_onClick roll (rollD8_onClick u) c = Some c' -> sheet_edit c c'.

(** What the sheet keeps true of a character with constitution 8 or
    more: the level is at least 1, a maximum of at least 1 is stored, the
    hit points lie in [0, maximum], the temporary hit points and the
    stored hit dice are in range, and the death-save arrays hold three
    booleans. *)
Definition sheet_ok (c : Character) : Prop :=
  8 <= constitution (ability_scores c)
  /\ 1 <= level c
  /\ (exists m, max_hit_points c = Some m /\ 1 <= m /\ 0 <= hit_points c <= m)
  /\ (forall t, temp_hp c = Some t -> 0 <= t)
  /\ (forall r, hit_dice_remaining c = Some r -> 0 <= r <= level c)
  /\ three_booleans (death_saves_success c) = true
  /\ three_booleans (death_saves_failure c) = true.

End SheetHandlers.

(* ===================================================================== *)
(** * src/pages/CharactersPage.tsx: rolling, point buy, navigation,       *)
(** * final ability scores                                                *)
(* ===================================================================== *)

Module CreationForm.
Import Js CharacterTypes CharactersPage.

(** [Math.floor(Math.random() * 6) + 1], [u] being what [Math.random()]
    returned. *)
Definition d6 (u : Q) : Z := Math_floor (u * inject_Z 6)%Q + 1.

(** [rollStat()]: four dice, their sum less the lowest.  [u1 .. u4] are
    the four values of the random source, in the order drawn. *)
Definition rollStat (u1 u2 u3 u4 : Q) : Z :=
  let dice := [d6 u1; d6 u2; d6 u3; d6 u4] in
  let sum := fold_left Z.add (tail dice) (nullish (head dice) 0) in
  let min := fold_left Z.min (tail dice) (nullish (head dice) 0) in
  sum - min.

(** [rollAllStats()]: [random k] is the [k]-th value the random source
    yields during the call. *)
Definition rollAllStats (random : nat -> Q) (st : FormState) : FormState :=
  let stat (k : nat) :=
    rollStat (random (4 * k)%nat) (random (4 * k + 1)%nat)
      (random (4 * k + 2)%nat) (random (4 * k + 3)%nat) in
  let pool := [stat 0%nat; stat 1%nat; stat 2%nat; stat 3%nat; stat 4%nat;
               stat 5%nat] in
  mkFormState (creationTab st) (abilityMethod st)
    (mkAbilityScores 0 0 0 0 0 0) (standardAssigned st) (pointBuyScores st)
    pool (abilitiesError st).

(** [onClick] of the "Rolled" method button:
    [setAbilityMethod('rolled'); rollAllStats()]. *)
Definition rolledMethod_onClick (random : nat -> Q) (st : FormState)
  : FormState :=
  let st' := rollAllStats random st in
  mkFormState (creationTab st') rolled (abilities st') (standardAssigned st')
    (pointBuyScores st') (rolledPool st') (abilitiesError st').

(** One turn of the Auto-Assign loop:
    [if (!assign[k] || assign[k] === 0) assign[k] = pool.shift() ?? 0]. *)
Definition autoAssign_turn (value : Z) (pool : list Z) : Z * list Z :=
  if value =? 0 then (nullish (head pool) 0, tail pool) else (value, pool).

(** [onClick] of "Auto-Assign": the loop over the six abilities in the
    order of [Object.keys(abilities)], on a copy of the pool. *)
Definition autoAssign_onClick (st : FormState) : FormState :=
  let a := abilities st in
  let pool := rolledPool st in
  let '(str, pool) := autoAssign_turn (strength a) pool in
  let '(dex, pool) := autoAssign_turn (dexterity a) pool in
  let '(con, pool) := autoAssign_turn (constitution a) pool in
  let '(int, pool) := autoAssign_turn (intelligence a) pool in
  let '(wis, pool) := autoAssign_turn (wisdom a) pool in
  let '(cha, pool) := autoAssign_turn (charisma a) pool in
  mkFormState (creationTab st) (abilityMethod st)
    (mkAbilityScores str dex con int wis cha) (standardAssigned st)
    (pointBuyScores st) (rolledPool st) (abilitiesError st).

(** [change(ability, delta)] of [PointBuyEditor].  The editor calls it
    with the keys of [scores] only; for any other key the source would
    store [NaN], which is [None] here. *)
Definition change (ability : string) (delta : Z) (scores : gmap string Z)
  : option (gmap string Z) :=
  match scores !! ability with
  | Some score =>
      Some (<[ability := Z.min 15 (Z.max 8 (score + delta))]> scores)
  | None => None
  end.

(** The initial [pointBuyScores]. *)
Definition initialPointBuyScores : gmap string Z :=
  list_to_map (zip abilityKeys [8; 8; 8; 8; 8; 8]).

(** One press of a [-] or [+] button of the editor. *)
Inductive pointBuy_press : gmap string Z -> gmap string Z -> Prop :=
| press_minus scores ability scores' :
    change ability (-1) scores = Some scores' ->
    pointBuy_press scores scores'
| press_plus scores ability scores' :
    change ability 1 scores = Some scores' ->
    pointBuy_press scores scores'.

(** [goBack()] *)
Definition goBack (st : FormState) : FormState :=
  match creationTab st with
  | tab_review => setCreationTab tab_abilities st
  | tab_abilities => setCreationTab tab_species st
  | tab_species => setCreationTab tab_background st
  | tab_background => setCreationTab tab_class st
  | tab_class => setCreationTab tab_basic st
  | tab_basic => st
  end.

(** The species choices that the ability bonuses read. *)
Record SpeciesChoice : Type := mkSpeciesChoice {
  selectedSpecies : string;
  halfElfExtraAbilities : list string;
  selectedHalflingSubrace : string;
  selectedGnomeSubrace : string
}.

(** [o[k] = (o[k] ?? 0) + n] *)
Definition bump (k : string) (n : Z) (o : gmap string Z) : gmap string Z :=
  <[k := nullish (o !! k) 0 + n]> o.

(** [halfElfExtraAbilities.slice(0,2).forEach(a => { if (a) o[a] = (o[a] ?? 0) + 1 })] *)
Definition halfElfExtras (extras : list string) (o : gmap string Z)
  : gmap string Z :=
  fold_left (fun o a => if String.eqb a "" then o else bump a 1 o)
    (take 2 extras) o.

(** [Object.keys(o).forEach(k => { o[k] = (o[k] ?? 0) + 1 })] *)
Definition humanBonus (o : gmap string Z) : gmap string Z :=
  fold_left (fun o k => bump k 1 o) (map_to_list o).*1 o.

(** [{ ...abilities }] *)
Definition abilitiesObject (a : AbilityScores) : gmap string Z :=
  list_to_map (zip abilityKeys (abilityValues a)).

(** [getFinalAbilities()]: the scores shown on the Review stage. *)
Definition getFinalAbilities (sp : SpeciesChoice) (st : FormState)
  : gmap string Z :=
  let base : gmap string Z :=
    match abilityMethod st with
    | standard =>
        fold_left
          (fun base k =>
             match standardAssigned st !! k, abilityAt (abilities st) k with
             | Some v, _ => <[k := v]> base
             | None, Some v => <[k := v]> base
             | None, None => base
             end)
          abilityKeys ∅
    | pointbuy => pointBuyScores st
    | rolled | manual => abilitiesObject (abilities st)
    end in
  let out := base in
  let species := selectedSpecies sp in
  let out :=
    if String.eqb species "Half-Elf"
    then halfElfExtras (halfElfExtraAbilities sp) (bump "charisma" 2 out)
    else out in
  let out :=
    if String.eqb species "Tiefling"
    then bump "charisma" 2 (bump "intelligence" 1 out) else out in
  let out :=
    if String.eqb species "Half-Orc"
    then bump "constitution" 1 (bump "strength" 2 out) else out in
  let out := if String.eqb species "Human" then humanBonus out else out in
  let out :=
    if String.eqb species "Halfling" then
      let out := bump "dexterity" 2 out in
      if String.eqb (selectedHalflingSubrace sp) "Lightfoot"
      then bump "charisma" 1 out
      else if String.eqb (selectedHalflingSubrace sp) "Stout"
      then bump "constitution" 1 out
      else out
    else out in
  let out :=
    if String.eqb species "Gnome" then
      let out := bump "intelligence" 2 out in
      if String.eqb (selectedGnomeSubrace sp) "Rock Gnome"
      then bump "constitution" 1 out else out
    else out in
  out.

(** [getPoolCounts()] *)
Definition getPoolCounts (st : FormState) : gmap Z Z := tally (rolledPool st).

(** [getAssignedCounts()]:
    [Object.values(abilities).forEach(v => { if (v && v > 0) ac[v] = (ac[v] ?? 0) + 1; })] *)
Definition getAssignedCounts (st : FormState) : gmap Z Z :=
  fold_left
    (fun ac v =>
       if negb (v =? 0) && (v >? 0) then <[v := nullish (ac !! v) 0 + 1]> ac
       else ac)
    (abilityValues (abilities st)) ∅.

(** [abilityMethod === 'standard'] and [abilityMethod === 'rolled'] *)
Definition is_standard (m : Method) : bool :=
  match m with standard => true | _ => false end.

Definition is_rolled (m : Method) : bool :=
  match m with rolled => true | _ => false end.

(** [isStandardUnassigned(abilityName)] *)
Definition isStandardUnassigned (st : FormState) (abilityName : string) : bool :=
  is_standard (abilityMethod st)
  && negb (truthy_num (standardAssigned st !! abilityName)).

(** [isRolledUnassigned(abilityName)]; [undefined > 0] is [false]. *)
Definition isRolledUnassigned (st : FormState) (abilityName : string) : bool :=
  is_rolled (abilityMethod st)
  && negb match abilityAt (abilities st) abilityName with
          | Some v => v >? 0
          | None => false
          end.

(** [isRolledOverAssigned(abilityName)] *)
Definition isRolledOverAssigned (st : FormState) (abilityName : string)
  : bool :=
  if negb (is_rolled (abilityMethod st)) then false
  else
    match abilityAt (abilities st) abilityName with
    | None => false
    | Some val =>
        if val =? 0 then false
        else
          let pc := getPoolCounts st in
          let ac := getAssignedCounts st in
          nullish (ac !! val) 0 >? nullish (pc !! val) 0
    end.

Section Submit.
(** As for [goNext], the validators of the four earlier stages are
    parameters. *)
Variables validateBasic validateClassTab validateBackgroundTab
  validateSpeciesTab : FormState -> bool * FormState.

(** [handleSubmit()] up to the end of the racial bonuses: the
    [finalAbilities] it goes on to store as [ability_scores], or [None]
    when it returns before. *)
Definition submittedAbilities (sp : SpeciesChoice) (st : FormState)
  : option (gmap string Z) :=
  if negb (validateBasic st).1 then None
  else if negb (validateClassTab st).1 then None
  else if negb (validateBackgroundTab st).1 then None
  else if negb (validateSpeciesTab st).1 then None
  else if negb (validateAbilities st).1 then None
  else
    finalAbilities ←
      match abilityMethod st with
      | standard =>
          if negb (standardAssignedAll st) then None
          else
            Some (fold_left
                    (fun final k =>
                       match standardAssigned st !! k with
                       | Some v => <[k := v]> final
                       | None => final
                       end)
                    abilityKeys ∅)
      | rolled | manual => Some (abilitiesObject (abilities st))
      | pointbuy =>
          if pointBuyTotal (pointBuyScores st) >? 27 then None
          else Some (pointBuyScores st)
      end;
    let species := selectedSpecies sp in
    let finalAbilities :=
      if String.eqb species "Half-Elf"
      then halfElfExtras (halfElfExtraAbilities sp)
             (bump "charisma" 2 finalAbilities)
      else finalAbilities in
    let finalAbilities :=
      if String.eqb species "Tiefling"
      then bump "charisma" 2 (bump "intelligence" 1 finalAbilities)
      else finalAbilities in
    let finalAbilities :=
      if String.eqb species "Gnome"
      then bump "constitution" 1 (bump "intelligence" 2 finalAbilities)
      else finalAbilities in
    let finalAbilities :=
      if String.eqb species "Half-Orc"
      then bump "constitution" 1 (bump "strength" 2 finalAbilities)
      else finalAbilities in
    let finalAbilities :=
      if String.eqb species "Human" then humanBonus finalAbilities
      else finalAbilities in
    let finalAbilities :=
      if String.eqb species "Halfling" then
        let finalAbilities := bump "dexterity" 2 finalAbilities in
        if String.eqb (selectedHalflingSubrace sp) "Lightfoot"
        then bump "charisma" 1 finalAbilities
        else if String.eqb (selectedHalflingSubrace sp) "Stout"
        then bump "constitution" 1 finalAbilities
        else finalAbilities
      else finalAbilities in
    Some finalAbilities.
End Submit.

End CreationForm.

(* ===================================================================== *)
(** * src/pages/DiceRoller.tsx                                            *)
(* ===================================================================== *)

Module DiceRoller.
Import Js CharacterSheet.

(** [rollType] *)
Inductive RollType : Type := normal | advantage | disadvantage.

(** What [parseDiceExpression] returns for an expression that
    matches. *)
Record Parsed : Type := mkParsed {
  count : Z;
  sides : Z;
  modifier : Z
}.

(** What [rollDice] returns. *)
Record Rolled : Type := mkRolled {
  rolls : list Z;
  allRolls : list Z;
  total : Z;
  diceType : string
}.

(** [for (let i = 0; i < parsed.count; i++) { const roll = ...;
    rolls.push(roll); allRolls.push(roll); }], one iteration per unit of
    fuel; the [i]-th iteration takes the [i]-th value of the random
    source. *)
Fixpoint roll_loop (fuel : nat) (random : nat -> Q) (i count sides : Z)
    (rolls allRolls : list Z) : list Z * list Z :=
  match fuel with
  | O => (rolls, allRolls)
  | S fuel' =>
      if i <? count then
        let roll := rollDie (random (Z.to_nat i)) sides in
        roll_loop fuel' random (i + 1) count sides (rolls ++ [roll])
          (allRolls ++ [roll])
      else (rolls, allRolls)
  end.

Section RollDice.
(** [parseDiceExpression] matches the expression against a regular
    expression; [rollDice] is modelled for any result of it, [None]
    standing for [null]. *)
Variable parseDiceExpression : string -> option Parsed.

(** [rollDice(expr)]; [random k] is the [k]-th value [Math.random()]
    yields during the call.  The loop runs [count] times. *)
Definition rollDice (rollType : RollType) (random : nat -> Q) (expr : string)
  : option Rolled :=
  parsed ← parseDiceExpression expr;
  let '(rolls, allRolls) :=
    if (count parsed =? 1)
       && negb match rollType with normal => true | _ => false end
    then
      let firstRoll := rollDie (random 0%nat) (sides parsed) in
      let secondRoll := rollDie (random 1%nat) (sides parsed) in
      let allRolls := [firstRoll; secondRoll] in
      match rollType with
      | advantage => ([Z.max firstRoll secondRoll], allRolls)
      | _ => ([Z.min firstRoll secondRoll], allRolls)
      end
    else
      roll_loop (Z.to_nat (count parsed)) random 0 (count parsed)
        (sides parsed) [] [] in
  let total := fold_left Z.add rolls 0 + modifier parsed in
  let diceType : string :=
    pretty (count parsed) +:+ "d" +:+ pretty (sides parsed)
    +:+ (if modifier parsed =? 0 then ""
         else (if modifier parsed >? 0 then "+" else "")
              +:+ pretty (modifier parsed)) in
  Some (mkRolled rolls allRolls total diceType).
End RollDice.

End DiceRoller.

(* ===================================================================== *)
(** * More sample inputs                                                  *)
(* ===================================================================== *)

Module MoreSamples.
Import Js CharacterTypes CharacterSheet CharactersPage SheetHandlers
  CreationForm Samples.

(** Three values of the random source. *)
Definition three_draws : list Q := [0%Q; 1 # 2; 7 # 8].

(** A level-1 bard with constitution 7 at 6 of 6 hit points. *)
Definition frail_bard : Character :=
  mkCharacter blank_profile "Bard" 1 (mkAbilityScores 8 14 7 10 12 15) 6
    [2] (Some 6) None None None None
    (Some {[ "1" := [Some false; Some false] ]}) None.

(** A random source that cycles through 0, 1/6, ..., 5/6. *)
Definition cycling_source (k : nat) : Q := Z.of_nat (k mod 6) # 6.

(** The Abilities stage in rolled mode with a given pool and given
    abilities. *)
Definition rolled_form (pool : list Z) (a : AbilityScores) : FormState :=
  mkFormState tab_abilities rolled a ∅ initialPointBuyScores pool None.

(** A validator that accepts every state and leaves it as it is. *)
Definition always_valid (st : FormState) : bool * FormState := (true, st).

(** A Human, and a Gnome with no subrace chosen. *)
Definition human_choice : SpeciesChoice := mkSpeciesChoice "Human" [] "" "".

Definition plain_gnome_choice : SpeciesChoice :=
  mkSpeciesChoice "Gnome" [] "" "".

(** A level-4 fighter whose record stores no maximum. *)
Definition fighter_without_max : Character :=
  mkCharacter blank_profile "Fighter" 4 (mkAbilityScores 16 12 14 10 12 8) 20
    [] None None None None None None None.

(** A parser that reads every expression as "2d6+3", and one that
    reads every expression as "1d20+5". *)
Definition reads_2d6_plus_3 (expr : string) : option DiceRoller.Parsed :=
  Some (DiceRoller.mkParsed 2 6 3).

Definition reads_1d20_plus_5 (expr : string) : option DiceRoller.Parsed :=
  Some (DiceRoller.mkParsed 1 20 5).

End MoreSamples.

(* ===================================================================== *)
(** * Facts about the JavaScript primitives                               *)
(* ===================================================================== *)

Module JsFacts.
Import Js.

(** [Math.floor(a / b)] is floor division for a positive divisor. *)
Lemma Math_floor_num_div (a b : Z) :
  0 < b -> Math_floor (num_div a b) = a `div` b.
Proof.
  intros _. unfold Math_floor, num_div. symmetry. apply Zdiv_Qdiv.
Qed.

(** The floor of a fraction of [n] lies in [0, n - 1]. *)
Lemma Math_floor_fraction (u : Q) (n : Z) :
  (0 <= u)%Q -> (u < 1)%Q -> 0 < n ->
  0 <= Math_floor (u * inject_Z n)%Q < n.
Proof.
  intros H0 H1 Hn. unfold Math_floor.
  assert (Hpos : (0 < inject_Z n)%Q) by (rewrite (Zlt_Qlt 0 n) in Hn; exact Hn).
  split.
  - change 0 with (Qfloor (inject_Z 0)) at 1. apply Qfloor_resp_le.
    apply Qmult_le_0_compat; [exact H0 | apply Qlt_le_weak, Hpos].
  - rewrite Zlt_Qlt.
    eapply Qle_lt_trans; [apply Qfloor_le |].
    assert (Hlt : (u * inject_Z n < 1 * inject_Z n)%Q)
      by (apply Qmult_lt_compat_r; assumption).
    by rewrite Qmult_1_l in Hlt.
Qed.

Lemma is_index_true (i : Z) :
  is_index i = true <-> 0 <= i < MAX_ARRAY_LENGTH.
Proof. unfold is_index. rewrite andb_true_iff. lia. Qed.

(** The padding loop appends exactly the missing entries when it has
    fuel for them. *)
Lemma push_while_spec (fuel : nat) (n : Z) (v : bool) (arr : barray) :
  (Z.to_nat (n - Z.of_nat (length arr)) <= fuel)%nat ->
  push_while fuel n v arr
  = arr ++ replicate (Z.to_nat (n - Z.of_nat (length arr))) (Some v).
Proof.
  revert arr. induction fuel as [|fuel IH]; intros arr Hfuel; simpl.
  - replace (Z.to_nat (n - Z.of_nat (length arr))) with O by lia.
    simpl. by rewrite app_nil_r.
  - destruct (Z.ltb_spec (Z.of_nat (length arr)) n) as [Hlt|Hge].
    + rewrite IH; rewrite length_app; simpl; [|lia].
      replace (Z.to_nat (n - Z.of_nat (length arr)))
        with (S (Z.to_nat (n - Z.of_nat (length arr + 1)))) by lia.
      simpl. by rewrite <- app_assoc.
    + replace (Z.to_nat (n - Z.of_nat (length arr))) with O by lia.
      simpl. by rewrite app_nil_r.
Qed.

(** The padded array, whenever the bound is a possible array length. *)
Lemma arr_pad_spec (n : Z) (v : bool) (arr : barray) :
  n <= MAX_ARRAY_LENGTH ->
  arr_pad n v arr
  = Some (arr ++ replicate (Z.to_nat (n - Z.of_nat (length arr))) (Some v)).
Proof.
  intros Hn. unfold arr_pad.
  destruct (Z.leb_spec n MAX_ARRAY_LENGTH); [|lia].
  f_equal. apply push_while_spec. lia.
Qed.

Lemma arr_get_in_range (arr : barray) (i : Z) (x : option bool) :
  0 <= i -> arr !! Z.to_nat i = Some x ->
  Z.of_nat (length arr) <= MAX_ARRAY_LENGTH ->
  arr_get arr i = x.
Proof.
  intros Hi Hx Hlen. unfold arr_get, arr_index.
  apply lookup_lt_Some in Hx as Hlt.
  destruct (is_index i) eqn:E.
  - by rewrite Hx.
  - apply not_true_iff_false in E. rewrite is_index_true in E. lia.
Qed.

(** A toggle inside the array replaces that one element by the
    negation of its truthiness. *)
Lemma arr_toggle_in_range (arr : barray) (i : Z) :
  0 <= i < Z.of_nat (length arr) ->
  i < MAX_ARRAY_LENGTH ->
  arr_toggle arr i
  = <[Z.to_nat i := Some (negb (truthy (arr_get arr i)))]> arr.
Proof.
  intros Hi Hlen. unfold arr_toggle, arr_set.
  destruct (is_index i) eqn:E.
  - destruct (Nat.ltb_spec (Z.to_nat i) (length arr)); [done | lia].
  - apply not_true_iff_false in E. rewrite is_index_true in E. lia.
Qed.

(** A toggle at or beyond the end grows the array. *)
Lemma arr_toggle_beyond (arr : barray) (i : Z) :
  Z.of_nat (length arr) <= i < MAX_ARRAY_LENGTH ->
  arr_toggle arr i
  = arr ++ replicate (Z.to_nat i - length arr) None ++ [Some true].
Proof.
  intros Hi. unfold arr_toggle, arr_set, arr_get, arr_index.
  destruct (is_index i) eqn:E.
  - destruct (Nat.ltb_spec (Z.to_nat i) (length arr)); [lia |].
    rewrite lookup_ge_None_2 by lia. done.
  - apply not_true_iff_false in E. rewrite is_index_true in E. lia.
Qed.

(** A toggle at a negative position leaves the elements alone. *)
Lemma arr_toggle_negative (arr : barray) (i : Z) :
  i < 0 -> arr_toggle arr i = arr.
Proof.
  intros Hi. unfold arr_toggle, arr_set.
  destruct (is_index i) eqn:E; [|done].
  rewrite is_index_true in E. lia.
Qed.

(** Reading back the toggled position. *)
Lemma arr_get_toggle_same (arr : barray) (i : Z) :
  0 <= i < Z.of_nat (length arr) ->
  Z.of_nat (length arr) <= MAX_ARRAY_LENGTH ->
  arr_get (arr_toggle arr i) i = Some (negb (truthy (arr_get arr i))).
Proof.
  intros Hi Hlen. rewrite arr_toggle_in_range by lia.
  apply arr_get_in_range; [lia | | by rewrite length_insert].
  apply list_lookup_insert_eq. lia.
Qed.

(** Reading any other position. *)
Lemma arr_get_toggle_other (arr : barray) (i j : Z) :
  j <> i ->
  0 <= i < Z.of_nat (length arr) ->
  Z.of_nat (length arr) <= MAX_ARRAY_LENGTH ->
  arr_get (arr_toggle arr i) j = arr_get arr j.
Proof.
  intros Hne Hi Hlen. rewrite arr_toggle_in_range by lia.
  unfold arr_get, arr_index. destruct (is_index j) eqn:E; [|done].
  apply is_index_true in E. rewrite list_lookup_insert_ne by lia. done.
Qed.

Lemma length_arr_toggle (arr : barray) (i : Z) :
  0 <= i < Z.of_nat (length arr) ->
  Z.of_nat (length arr) <= MAX_ARRAY_LENGTH ->
  length (arr_toggle arr i) = length arr.
Proof.
  intros Hi Hlen. rewrite arr_toggle_in_range by lia.
  apply length_insert.
Qed.

(** Toggling a boolean twice restores the array. *)
Lemma arr_toggle_twice (arr : barray) (i : Z) (b : bool) :
  0 <= i -> arr !! Z.to_nat i = Some (Some b) ->
  Z.of_nat (length arr) <= MAX_ARRAY_LENGTH ->
  arr_toggle (arr_toggle arr i) i = arr.
Proof.
  intros Hi Hb Hlen. apply lookup_lt_Some in Hb as Hlt.
  rewrite (arr_toggle_in_range (arr_toggle arr i))
    by (try rewrite length_arr_toggle by lia; lia).
  rewrite arr_get_toggle_same by lia.
  rewrite (arr_get_in_range arr i (Some b)) by assumption.
  rewrite arr_toggle_in_range by lia.
  rewrite list_insert_insert_eq. cbn. rewrite negb_involutive.
  by apply list_insert_id.
Qed.

End JsFacts.

(* ===================================================================== *)
(** * Derived stats (src/types/character.ts)                              *)
(* ===================================================================== *)

Module DerivedStats.
Import Js CharacterTypes JsFacts.

(** C9.  For every integer score [s], [getAbilityModifier s] is
    [floor((s - 10) / 2)]: it is the floor division of [s - 10] by 2,
    that is the one integer [m] with [2m <= s - 10 < 2m + 2]; it is
    defined for every integer; and the modifiers of 10, 15, 8 and 20 are
    0, 2, -1 and 5. *)
Theorem getAbilityModifier_floor (s : Z) :
  getAbilityModifier s = (s - 10) `div` 2
  /\ 2 * getAbilityModifier s <= s - 10 < 2 * getAbilityModifier s + 2
  /\ (forall m : Z, 2 * m <= s - 10 < 2 * m + 2 -> getAbilityModifier s = m)
  /\ getAbilityModifier 10 = 0
  /\ getAbilityModifier 15 = 2
  /\ getAbilityModifier 8 = -1
  /\ getAbilityModifier 20 = 5.
Proof.
  assert (E : getAbilityModifier s = (s - 10) `div` 2)
    by (apply Math_floor_num_div; lia).
  rewrite E.
  pose proof (Z.div_mod (s - 10) 2 ltac:(lia)) as Hdm.
  pose proof (Z.mod_pos_bound (s - 10) 2 ltac:(lia)) as Hb.
  repeat split; try lia; reflexivity.
Qed.

(** The proficiency bonus is [floor((level - 1) / 4) + 2]. *)
Lemma getProficiencyBonus_floor (l : Z) :
  getProficiencyBonus l = (l - 1) `div` 4 + 2.
Proof.
  unfold getProficiencyBonus. by rewrite Math_floor_num_div by lia.
Qed.

End DerivedStats.

(* ===================================================================== *)
(** * The sheet's handlers (src/pages/CharacterSheet.tsx)                 *)
(* ===================================================================== *)

Module SheetProperties.
Import Js CharacterTypes CharacterSheet JsFacts DerivedStats Samples.

(** Closes a [same_except] goal once the handler is unfolded: a field
    is either untouched or one of the listed ones. *)
Ltac frame :=
  let f := fresh "f" in
  let Hf := fresh "Hf" in
  intros f Hf; destruct f; try reflexivity; exfalso; apply Hf;
  repeat first [apply list_elem_of_here | apply list_elem_of_further].

(** The table lists only d6, d8, d10 and d12, and the default is d8. *)
Lemma hitDie_range (c : Character) : 6 <= hitDie c <= 12.
Proof.
  unfold hitDie. destruct (classHitDie !! class c) as [d|] eqn:E; simpl.
  - apply elem_of_list_to_map_2 in E.
    repeat (apply elem_of_cons in E as [E|E]; [inversion E; lia|]).
    by apply elem_of_nil in E.
  - lia.
Qed.

Lemma maxHit_stored (c : Character) (m : Z) :
  max_hit_points c = Some m -> maxHit c = m.
Proof. unfold maxHit. by intros ->. Qed.

(* ------------------------------------------------------------------- *)
(** ** Hit points                                                       *)
(* ------------------------------------------------------------------- *)

(** C3.  For every character and every integer entered as current hit
    points, the handler stores that value clamped into
    [0, max_hit_points], that is [max(0, min(newCurrent, max))]: the
    stored hit points are never negative and, the maximum being at
    least 0, never above it; [temp_hp] and every other field stay as they
    were.  The maximum is the stored [max_hit_points] (the sheet reads
    [level * 8] for a record without one). *)
Theorem currentHp_onChange_clamps (c : Character) (newCurrent : Z) :
  exists c',
    currentHp_onChange (Some newCurrent) c = Some c'
    /\ hit_points c' = Z.max 0 (Z.min newCurrent (maxHit c))
    /\ 0 <= hit_points c'
    /\ (0 <= maxHit c -> hit_points c' <= maxHit c)
    /\ (forall m, max_hit_points c = Some m -> 0 <= m ->
          0 <= hit_points c' <= m)
    /\ temp_hp c' = temp_hp c
    /\ same_except [f_hit_points] c c'.
Proof.
  eexists. split; [reflexivity|]. cbn.
  repeat split; try lia; try frame;
    match goal with
    | H : max_hit_points c = Some _ |- _ => apply maxHit_stored in H; lia
    end.
Qed.

(** With a maximum of 20, entering -5 stores 0 and entering 999
    stores 20. *)
Lemma currentHp_onChange_examples :
  hit_points (next_state wounded (currentHp_onChange (Some (-5)) wounded)) = 0
  /\ hit_points (next_state wounded (currentHp_onChange (Some 999) wounded)) = 20.
Proof.
  split.
  - destruct (currentHp_onChange_clamps wounded (-5)) as (c' & -> & E & _).
    exact E.
  - destruct (currentHp_onChange_clamps wounded 999) as (c' & -> & E & _).
    exact E.
Defined.

(** C4.  For every character and every integer entered as maximum hit
    points, the handler stores [max(1, newMax)] as the maximum, and when
    the current hit points exceed it they are brought down to it
    (otherwise they are kept); nothing else changes. *)
Theorem maxHp_onChange_clamps (c : Character) (newMax : Z) :
  exists c',
    maxHp_onChange (Some newMax) c = Some c'
    /\ max_hit_points c' = Some (Z.max 1 newMax)
    /\ 1 <= Z.max 1 newMax
    /\ (Z.max 1 newMax < hit_points c -> hit_points c' = Z.max 1 newMax)
    /\ (hit_points c <= Z.max 1 newMax -> hit_points c' = hit_points c)
    /\ hit_points c' <= Z.max 1 newMax
    /\ same_except [f_hit_points; f_max_hit_points] c c'.
Proof.
  eexists. split; [reflexivity|]. cbn.
  destruct (Z.gtb_spec (hit_points c) (Z.max 1 newMax)); cbn;
    repeat split; try lia; frame.
Qed.

(** At 15 of 20 hit points, entering a maximum of 10 leaves 10 of 10. *)
Lemma maxHp_onChange_example :
  exists c',
    maxHp_onChange (Some 10) wounded = Some c'
    /\ hit_points c' = 10 /\ max_hit_points c' = Some 10.
Proof.
  destruct (maxHp_onChange_clamps wounded 10) as (c' & E & Hmax & _ & Hhp & _).
  exists c'. split; [exact E|]. split; [|exact Hmax].
  apply Hhp. vm_compute. reflexivity.
Defined.

(* ------------------------------------------------------------------- *)
(** ** Long rest                                                        *)
(* ------------------------------------------------------------------- *)

(** C1, amended.  For every character, with [L] the level the handler
    works with (the level, or 1 for a level of 0), the long rest yields a
    character with no used abilities, no used spell slots and
    [min(L, r + max(1, floor(L / 2)))] hit dice, where [r] is the stored
    count, or [L] when the record stores none, as the records the
    creation form writes; in that case the result is [L].  The hit points
    become the stored maximum when there is one; when none is stored they
    become [L] times the class hit die, and still no maximum is stored.
    The other fields, the maximum among them, are kept. *)
Theorem longRest_restores (c : Character) :
  let L := or_num (level c) 1 in
  let r := nullish (hit_dice_remaining c) L in
  exists c',
    longRest_onConfirm c = Some c'
    /\ (level c <> 0 -> L = level c)
    /\ used_abilities c' = Some []
    /\ spell_slots_used c' = Some ∅
    /\ hit_points c' = nullish (max_hit_points c) (L * hitDie c)
    /\ (forall m, max_hit_points c = Some m -> hit_points c' = m)
    /\ (max_hit_points c = None -> hit_points c' = L * hitDie c)
    /\ max_hit_points c' = max_hit_points c
    /\ hit_dice_remaining c' = Some (Z.min L (r + Z.max 1 (L `div` 2)))
    /\ (forall r0, hit_dice_remaining c = Some r0 ->
          hit_dice_remaining c' = Some (Z.min L (r0 + Z.max 1 (L `div` 2))))
    /\ (hit_dice_remaining c = None -> hit_dice_remaining c' = Some L)
    /\ same_except
         [f_used_abilities; f_spell_slots_used; f_hit_points;
          f_hit_dice_remaining] c c'.
Proof.
  intros L r.
  assert (Hrun : longRest_onConfirm c
                 = Some (spread c
                           [set_used_abilities [];
                            set_spell_slots_used ∅;
                            set_hit_points
                              (nullish (max_hit_points c) (L * hitDie c));
                            set_hit_dice_remaining
                              (Z.min L (r + Z.max 1 (L `div` 2)))])).
  { unfold longRest_onConfirm. cbv zeta. fold L. fold r.
    by rewrite Math_floor_num_div by lia. }
  eexists. split; [exact Hrun|].
  cbn [spread fold_left override used_abilities spell_slots_used hit_points
    max_hit_points hit_dice_remaining].
  split. { subst L. unfold or_num. by destruct (Z.eqb_spec (level c) 0). }
  split; [done|]. split; [done|]. split; [done|].
  split; [by intros m ->|]. split; [by intros ->|]. split; [done|].
  split; [done|]. split; [subst r; by intros r0 ->|].
  split; [|frame].
  subst r. intros ->. cbn [nullish]. f_equal. lia.
Qed.

(** The spec's instance: used_abilities = {"x"}, both first-level slots
    used, 5 of 20 hit points, no hit dice left, level 4. *)
Lemma longRest_example :
  exists c',
    longRest_onConfirm tired_bard = Some c'
    /\ used_abilities c' = Some []
    /\ spell_slots_used c' = Some ∅
    /\ hit_points c' = 20
    /\ hit_dice_remaining c' = Some 2.
Proof.
  destruct (longRest_restores tired_bard)
    as (c' & E & _ & Hu & Hs & _ & Hhp & _ & _ & _ & Hd & _ & _).
  exists c'. split; [exact E|]. split; [exact Hu|]. split; [exact Hs|].
  split; [exact (Hhp 20 eq_refl) | exact (Hd 0 eq_refl)].
Defined.

(** C1 as stated fails for a record that stores no maximum, which the
    [Character] type allows and the handler provides for.  A level-4
    Fighter without one rests to 40 hit points (4 times the d10); the
    record still stores no maximum for the hit points to equal, and the
    maximum the sheet shows and enforces for it is 32. *)
Lemma longRest_fighter_without_max :
  1 <= level MoreSamples.fighter_without_max
  /\ max_hit_points MoreSamples.fighter_without_max = None
  /\ exists c',
       longRest_onConfirm MoreSamples.fighter_without_max = Some c'
       /\ hit_points c' = 40
       /\ max_hit_points c' = None
       /\ Some (hit_points c') <> max_hit_points c'
       /\ maxHit c' = 32
       /\ hit_points c' <> maxHit c'.
Proof.
  split; [by vm_compute|]. split; [reflexivity|].
  eexists. split; [reflexivity|]. by vm_compute.
Qed.

(** A record without [hit_dice_remaining] counts as having all its hit
    dice, and keeps them. *)
Lemma longRest_without_dice (c : Character) :
  1 <= level c -> hit_dice_remaining c = None ->
  exists c',
    longRest_onConfirm c = Some c'
    /\ hit_dice_remaining c' = Some (level c).
Proof.
  intros Hpos Hd. unfold longRest_onConfirm. cbv zeta.
  assert (E : or_num (level c) 1 = level c)
    by (unfold or_num; destruct (Z.eqb_spec (level c) 0); lia).
  rewrite Hd, E, Math_floor_num_div by lia.
  eexists. split; [reflexivity|]. cbn. f_equal.
  pose proof (Z.div_pos (level c) 2). lia.
Qed.

(** Without a stored maximum the long rest sets the hit points to
    [level] times the class hit die, and still stores no maximum. *)
Lemma longRest_without_max (c : Character) :
  1 <= level c -> max_hit_points c = None ->
  exists c',
    longRest_onConfirm c = Some c'
    /\ hit_points c' = level c * hitDie c
    /\ max_hit_points c' = None.
Proof.
  intros Hpos Hm. eexists. split; [reflexivity|]. cbn. rewrite Hm. cbn.
  split; [|done]. unfold or_num. destruct (Z.eqb_spec (level c) 0); lia.
Qed.

(* ------------------------------------------------------------------- *)
(** ** Short rest: spending a hit die                                   *)
(* ------------------------------------------------------------------- *)

Lemma or_num_0 (x : Z) : or_num x 0 = x.
Proof. unfold or_num. destruct (Z.eqb_spec x 0); lia. Qed.

(** The die roll lies in [1, die]. *)
Lemma rollDie_range (u : Q) (die : Z) :
  (0 <= u)%Q -> (u < 1)%Q -> 0 < die -> 1 <= rollDie u die <= die.
Proof.
  intros H0 H1 Hd. unfold rollDie.
  pose proof (Math_floor_fraction u die H0 H1 Hd). lia.
Qed.

(** C5.  With [u] in [0, 1) the value of the random source, [available]
    the hit dice the sheet shows as left, [roll] the resulting die roll
    and [maxHp] the maximum: when [available <= 0] the handler updates
    nothing; otherwise [roll] lies in [1, die], the hit points become
    [min(maxHp, hit_points + max(0, roll + CON modifier))], which does
    not exceed the maximum, and the hit dice left become
    [available - 1], which is not negative; nothing else changes. *)
Theorem spendHitDie_spec (u : Q) (c : Character) :
  (0 <= u)%Q -> (u < 1)%Q ->
  let available := nullish (hit_dice_remaining c) (or_num (level c) 1) in
  let roll := rollDie u (hitDie c) in
  let conMod := getAbilityModifier (constitution (ability_scores c)) in
  let maxHp := nullish (max_hit_points c) (or_num (level c) 1 * 8) in
  (available <= 0 ->
     spendHitDie_onClick u c = None
     /\ next_state c (fst <$> spendHitDie_onClick u c) = c)
  /\ (0 < available ->
      1 <= roll <= hitDie c
      /\ exists c' info,
          spendHitDie_onClick u c = Some (c', info)
          /\ hit_points c' = Z.min maxHp (hit_points c + Z.max 0 (roll + conMod))
          /\ hit_points c' <= maxHp
          /\ (forall m, max_hit_points c = Some m -> hit_points c' <= m)
          /\ hit_dice_remaining c' = Some (available - 1)
          /\ 0 <= available - 1
          /\ same_except [f_hit_points; f_hit_dice_remaining] c c').
Proof.
  intros H0 H1 available roll conMod maxHp.
  pose proof (hitDie_range c) as Hdie.
  unfold spendHitDie_onClick. cbv zeta.
  fold available roll conMod maxHp.
  split; intros Ha.
  - destruct (Z.leb_spec available 0); [done | lia].
  - destruct (Z.leb_spec available 0); [lia |].
    split; [apply rollDie_range; (assumption || lia)|].
    do 2 eexists. split; [reflexivity|].
    rewrite or_num_0. cbn [spread fold_left override hit_points
      hit_dice_remaining max_hit_points].
    repeat split; try lia; try frame.
    + intros m Hm. subst maxHp. rewrite Hm. cbn. lia.
    + f_equal. lia.
Qed.

(** A level-4 bard (d8, CON 14) at 5 of 20 with two dice left and the
    random source at 7/8: the roll is 8, ten points are healed and one
    die is left. *)
Lemma spendHitDie_example :
  exists c' info,
    spendHitDie_onClick (7 # 8) bard_with_dice = Some (c', info)
    /\ hit_points c' = 15 /\ hit_dice_remaining c' = Some 1.
Proof.
  destruct (spendHitDie_spec (7 # 8) bard_with_dice) as [_ H];
    [by vm_compute | by vm_compute |].
  destruct H as (_ & c' & info & E & Hhp & _ & _ & Hd & _);
    [by vm_compute|].
  exists c', info. split; [exact E|]. split.
  - rewrite Hhp. by vm_compute.
  - rewrite Hd. by vm_compute.
Defined.

(* ------------------------------------------------------------------- *)
(** ** Level up                                                         *)
(* ------------------------------------------------------------------- *)



(** For a bard with no stored maximum (or a stored 0) the new maximum is
    counted from the current hit points. *)
Lemma levelUp_without_max (c : Character) :
  class c = "Bard" -> max_hit_points c = None \/ max_hit_points c = Some 0 ->
  exists c',
    levelUp_onClick average None c = Some c'
    /\ max_hit_points c'
       = Some (hit_points c
               + (5 + getAbilityModifier (constitution (ability_scores c)))).
Proof.
  intros HB Hm. unfold levelUp_onClick. rewrite HB. cbn.
  eexists. split; [reflexivity|]. cbn. by destruct Hm as [-> | ->].
Qed.

(** A bard who chose to roll and has not rolled is not levelled up. *)
Lemma levelUp_needs_roll (c : Character) :
  class c = "Bard" -> levelUp_onClick roll None c = None.
Proof. intros HB. unfold levelUp_onClick. by rewrite HB. Qed.

(* ------------------------------------------------------------------- *)
(** ** Death saves                                                       *)
(* ------------------------------------------------------------------- *)

Lemma three_booleans_inv (saves : option barray) :
  three_booleans saves = true ->
  exists b0 b1 b2,
    nullish saves [Some false; Some false; Some false]
    = [Some b0; Some b1; Some b2].
Proof.
  destruct saves as [arr|]; cbn; [|by exists false, false, false].
  rewrite andb_true_iff, Nat.eqb_eq. intros [Hlen Hall].
  destruct arr as [|[b0|] [|[b1|] [|[b2|] [|? ?]]]]; try discriminate.
  by exists b0, b1, b2.
Qed.

(** What one death-save toggle does to the toggled row, whose array
    [view] holds three booleans. *)
Lemma toggle_three_booleans (view : barray) (i : Z) :
  0 <= i <= 2 ->
  (exists b0 b1 b2, view = [Some b0; Some b1; Some b2]) ->
  (exists b,
     arr_get view i = Some b
     /\ arr_get (arr_toggle view i) i = Some (negb b))
  /\ (forall j : Z, j <> i ->
        arr_get (arr_toggle view i) j = arr_get view j)
  /\ three_booleans (Some (arr_toggle view i)) = true
  /\ arr_toggle (arr_toggle view i) i = view.
Proof.
  intros Hi (b0 & b1 & b2 & ->).
  assert (Hlen : Z.of_nat (length [Some b0; Some b1; Some b2])
                 <= MAX_ARRAY_LENGTH) by (cbn; unfold MAX_ARRAY_LENGTH; lia).
  assert (Hin : 0 <= i < Z.of_nat (length [Some b0; Some b1; Some b2]))
    by (cbn; lia).
  assert (Hb : exists b, [Some b0; Some b1; Some b2] !! Z.to_nat i
                         = Some (Some b)).
  { assert (Hcases : i = 0 \/ i = 1 \/ i = 2) by lia.
    destruct Hcases as [->|[->| ->]]; eauto. }
  destruct Hb as [b Hb].
  repeat split.
  - exists b. rewrite arr_get_toggle_same by assumption.
    by rewrite (arr_get_in_range _ i (Some b)) by (assumption || lia).
  - intros j Hj. by apply arr_get_toggle_other.
  - assert (Hcases : i = 0 \/ i = 1 \/ i = 2) by lia.
    destruct Hcases as [->|[->| ->]]; reflexivity.
  - by apply (arr_toggle_twice _ i b); [lia | |].
Qed.

(** C10.  For every character whose stored death-save arrays, where
    present, hold three booleans, either row and every index in [0, 2]:
    the toggle negates the boolean at that index of that row's array (a
    missing array counting as [false, false, false]) and no other element;
    both arrays keep three booleans; every other field of the character is
    unchanged; and a second identical toggle gives back the arrays the
    sheet showed before the first. *)
Theorem toggleDeathSave_spec (kind : SaveKind) (i : Z) (c : Character) :
  0 <= i <= 2 ->
  three_booleans (death_saves_success c) = true ->
  three_booleans (death_saves_failure c) = true ->
  exists c' c'',
    toggleDeathSave kind i c = Some c'
    /\ toggleDeathSave kind i c' = Some c''
    /\ (exists b,
          arr_get (deathSaves kind c) i = Some b
          /\ arr_get (deathSaves kind c') i = Some (negb b))
    /\ (forall j : Z, j <> i ->
          arr_get (deathSaves kind c') j = arr_get (deathSaves kind c) j)
    /\ length (deathSaves success c') = 3%nat
    /\ length (deathSaves failure c') = 3%nat
    /\ three_booleans (death_saves_success c') = true
    /\ three_booleans (death_saves_failure c') = true
    /\ same_except [deathSaves_field kind] c c'
    /\ deathSaves success c'' = deathSaves success c
    /\ deathSaves failure c'' = deathSaves failure c
    /\ same_except [deathSaves_field kind] c c''.
Proof.
  intros Hi Hs Hf.
  pose proof (three_booleans_inv _ Hs) as Hsv.
  pose proof (three_booleans_inv _ Hf) as Hfv.
  destruct kind.
  - destruct (toggle_three_booleans _ i Hi Hsv) as (Hflip & Hrest & H3 & Htwice).
    do 2 eexists. split; [reflexivity|]. split; [reflexivity|].
    unfold deathSaves in *.
    cbn [deathSaves_field spread fold_left override death_saves_success
         death_saves_failure nullish].
    rewrite Htwice.
    destruct Hsv as (s0 & s1 & s2 & Es). destruct Hfv as (f0 & f1 & f2 & Ef).
    repeat split; try assumption; try frame.
    + apply andb_true_iff in H3 as [H3 _]. by apply Nat.eqb_eq in H3.
    + by rewrite Ef.
  - destruct (toggle_three_booleans _ i Hi Hfv) as (Hflip & Hrest & H3 & Htwice).
    do 2 eexists. split; [reflexivity|]. split; [reflexivity|].
    unfold deathSaves in *.
    cbn [deathSaves_field spread fold_left override death_saves_success
         death_saves_failure nullish].
    rewrite Htwice.
    destruct Hsv as (s0 & s1 & s2 & Es). destruct Hfv as (f0 & f1 & f2 & Ef).
    repeat split; try assumption; try frame.
    + by rewrite Es.
    + apply andb_true_iff in H3 as [H3 _]. by apply Nat.eqb_eq in H3.
Qed.

(** On a character with one success marked, toggling the second success
    gives [true, true, false], and toggling it again gives back
    [true, false, false]. *)
Lemma toggleDeathSave_example :
  exists c' c'',
    toggleDeathSave success 1 dying_bard = Some c'
    /\ toggleDeathSave success 1 c' = Some c''
    /\ arr_get (deathSaves success c') 1 = Some true
    /\ deathSaves success c'' = [Some true; Some false; Some false].
Proof.
  destruct (toggleDeathSave_spec success 1 dying_bard)
    as (c' & c'' & E1 & E2 & (b & Hb & Hb') & _ & _ & _ & _ & _ & _ & Hback & _);
    [lia | reflexivity | reflexivity |].
  exists c', c''. repeat split; [exact E1 | exact E2 | | exact Hback].
  rewrite Hb'. vm_compute in Hb. by inversion Hb.
Defined.

(* ------------------------------------------------------------------- *)
(** ** Spell slots                                                       *)
(* ------------------------------------------------------------------- *)

(** The slot count comes from [spell_slots] when it declares one for the
    level. *)
Lemma maxSlots_declared (c : Character) (lvl k : Z) :
  arr_index (spell_slots c) (lvl - 1) = Some k -> maxSlots c lvl = k.
Proof. unfold maxSlots. by intros ->. Qed.

(** Otherwise it is 2 for the first level of a bard of level 1 or more,
    and 0 in every other case. *)
Lemma maxSlots_fallback (c : Character) (lvl : Z) :
  arr_index (spell_slots c) (lvl - 1) = None ->
  maxSlots c lvl
  = if (lvl =? 1) && String.eqb (class c) "Bard" && (1 <=? level c)
    then 2 else 0.
Proof. unfold maxSlots. by intros ->. Qed.

Lemma maxSlots_bard_first_level (c : Character) :
  spell_slots c = [] -> class c = "Bard" -> 1 <= level c ->
  maxSlots c 1 = 2.
Proof.
  intros Hs Hc Hl. rewrite maxSlots_fallback by (by rewrite Hs).
  rewrite Hc. cbn. by destruct (Z.leb_spec 1 (level c)); [|lia].
Qed.

(** C2 as stated fails: with two declared first-level slots, both
    recorded as unused, index 2 is outside [0, 1], and yet the toggle
    stores a third entry, so the character is not left unchanged. *)
Lemma toggleSpellSlot_beyond_count_changes :
  maxSlots rested_bard 1 = 2
  /\ ~ (0 <= 2 <= maxSlots rested_bard 1 - 1)
  /\ next_state rested_bard (toggleSpellSlot 1 2 rested_bard) <> rested_bard
  /\ (spell_slots_used
        (next_state rested_bard (toggleSpellSlot 1 2 rested_bard))
        ≫= (.!! "1"))
     = Some [Some false; Some false; Some true].
Proof.
  split; [reflexivity|]. split; [vm_compute; intros [_ H]; by apply H|].
  split; [|by vm_compute].
  intros H. apply (f_equal (fun c => spell_slots_used c ≫= (.!! "1"))) in H.
  vm_compute in H. discriminate.
Qed.

(** C2, amended.  For every character, level and slot index, with
    [n] the slot count resolved for the level (the count [spell_slots]
    declares for it, else 2 for the first level of a bard of level 1 or
    more, else 0; a possible array length, and not negative when the
    level has no used-array yet):
    [toggleSpellSlot] takes the level's used-array, or [n] times [false]
    if there is none, pads it with [false] up to length [n], toggles the
    entry at [slotIndex] and stores the result under the level's key,
    changing nothing else.  Inside the padded array the toggle negates
    that entry and keeps the length.  An index at or beyond the end of
    the padded array is not rejected: the array grows to
    [slotIndex + 1] entries with [true] at [slotIndex] and empty
    positions before it.  A negative index leaves the padded entries as
    they are. *)
Theorem toggleSpellSlot_spec (lvl slotIndex : Z) (c : Character) :
  let key : string := pretty lvl in
  let existing := nullish (spell_slots_used c) ∅ in
  let n := maxSlots c lvl in
  let start := nullish (existing !! key) (replicate (Z.to_nat n) (Some false)) in
  let padded :=
    start ++ replicate (Z.to_nat (n - Z.of_nat (length start))) (Some false) in
  n <= MAX_ARRAY_LENGTH ->
  (existing !! key = None -> 0 <= n) ->
  exists c',
    toggleSpellSlot lvl slotIndex c = Some c'
    /\ spell_slots_used c'
       = Some (<[key := arr_toggle padded slotIndex]> existing)
    /\ same_except [f_spell_slots_used] c c'
    /\ (forall k, arr_index (spell_slots c) (lvl - 1) = Some k -> n = k)
    /\ (arr_index (spell_slots c) (lvl - 1) = None ->
        n = if (lvl =? 1) && String.eqb (class c) "Bard" && (1 <=? level c)
            then 2 else 0)
    /\ n <= Z.of_nat (length padded)
    /\ (0 <= slotIndex < Z.of_nat (length padded) ->
        slotIndex < MAX_ARRAY_LENGTH ->
        arr_toggle padded slotIndex
        = <[Z.to_nat slotIndex :=
              Some (negb (truthy (arr_get padded slotIndex)))]> padded)
    /\ (Z.of_nat (length padded) <= slotIndex < MAX_ARRAY_LENGTH ->
        arr_toggle padded slotIndex
        = padded ++ replicate (Z.to_nat slotIndex - length padded) None
                 ++ [Some true])
    /\ (slotIndex < 0 -> arr_toggle padded slotIndex = padded).
Proof.
  intros key existing n start padded Hmax Hfill.
  assert (Hrun : toggleSpellSlot lvl slotIndex c
                 = Some (spread c [set_spell_slots_used
                                     (<[key := arr_toggle padded slotIndex]>
                                        existing)])).
  { unfold toggleSpellSlot. cbv zeta. fold key existing n.
    subst padded start.
    destruct (existing !! key) as [used|] eqn:E; cbn [nullish mbind option_bind].
    - by rewrite arr_pad_spec by assumption.
    - unfold Array_fill.
      destruct (Z.leb_spec 0 n); [|specialize (Hfill eq_refl); lia].
      destruct (Z.leb_spec n MAX_ARRAY_LENGTH); [|lia].
      cbn [andb mbind option_bind].
      by rewrite arr_pad_spec by assumption. }
  eexists. split; [exact Hrun|]. cbn [spread fold_left override spell_slots_used].
  repeat split.
  - frame.
  - intros k Hk. by apply maxSlots_declared.
  - intros Hnone. by apply maxSlots_fallback.
  - subst padded. rewrite length_app, length_replicate. lia.
  - intros Hin Hidx. by apply arr_toggle_in_range.
  - intros Hin. by apply arr_toggle_beyond.
  - intros Hneg. by apply arr_toggle_negative.
Qed.

(** The spec's instance: two declared first-level slots and no
    used-array; toggling slot 1 of level 1 stores [false, true]. *)
Lemma toggleSpellSlot_example :
  exists c',
    toggleSpellSlot 1 1 fresh_bard = Some c'
    /\ (spell_slots_used c' ≫= (.!! "1")) = Some [Some false; Some true].
Proof.
  destruct (toggleSpellSlot_spec 1 1 fresh_bard) as (c' & E & Hused & _).
  - by vm_compute.
  - intros _. by vm_compute.
  - exists c'. split; [exact E|]. rewrite Hused. by vm_compute.
Defined.

End SheetProperties.

(* ===================================================================== *)
(** * The Abilities stage (src/pages/CharactersPage.tsx)                  *)
(* ===================================================================== *)

Module FormProperties.
Import Js CharacterTypes CharactersPage Samples.

(* ------------------------------------------------------------------- *)
(** ** Standard array                                                    *)
(* ------------------------------------------------------------------- *)

(** The standard-array check passes exactly when every ability holds a
    value other than 0. *)
Lemma standardAssignedAll_spec (st : FormState) :
  standardAssignedAll st = true
  <-> forall k, k ∈ abilityKeys ->
        exists v, standardAssigned st !! k = Some v /\ v <> 0.
Proof.
  unfold standardAssignedAll. rewrite forallb_forall. split.
  - intros H k Hk. apply list_elem_of_In, H in Hk.
    destruct (standardAssigned st !! k) as [v|]; [|discriminate].
    exists v. split; [done|]. cbn in Hk. intros ->. discriminate.
  - intros H k Hk. apply list_elem_of_In, H in Hk as (v & -> & Hv).
    cbn. by destruct (Z.eqb_spec v 0).
Qed.

(** The values held by the other abilities. *)
Lemma used_by_others (assigned : gmap string Z) (key : string) (v : Z) :
  v ∈ (filter (fun kv => kv.1 ≠ key) (map_to_list assigned)).*2
  <-> exists k, k ≠ key /\ assigned !! k = Some v.
Proof.
  rewrite list_elem_of_fmap. split.
  - intros ([k w] & -> & H). apply list_elem_of_filter in H as [Hne H].
    apply elem_of_map_to_list in H. by exists k.
  - intros (k & Hne & H). exists (k, v). split; [done|].
    apply list_elem_of_filter. split; [done|].
    by apply elem_of_map_to_list.
Qed.

(** A select offers the array values that no other ability holds. *)
Lemma standardOptions_spec (assigned : gmap string Z) (key : string) (v : Z) :
  v ∈ standardOptions assigned key
  <-> v ∈ STANDARD_ARRAY
      /\ (~ (exists k, k ≠ key /\ assigned !! k = Some v)
          \/ assigned !! key = Some v).
Proof.
  unfold standardOptions. rewrite list_elem_of_filter, used_by_others.
  tauto.
Qed.

(** One use of a select keeps the assignment well formed. *)
Lemma select_step_well_assigned (assigned assigned' : gmap string Z) :
  well_assigned assigned -> select_step assigned assigned' ->
  well_assigned assigned'.
Proof.
  intros [Hdom Hinj] Hstep.
  destruct Hstep as [assigned key Hkey | assigned key v Hkey Hopt];
    unfold standardSelect_onChange; cbn [nullish].
  - split.
    + intros k w. destruct (decide (k = key)) as [->|Hne].
      * rewrite lookup_insert_eq. intros [= <-]. split; [done | by left].
      * rewrite lookup_insert_ne by done. apply Hdom.
    + intros k1 k2 w H1 H2 Hw.
      destruct (decide (k1 = key)) as [->|Hne1];
        [rewrite lookup_insert_eq in H1; congruence|].
      destruct (decide (k2 = key)) as [->|Hne2];
        [rewrite lookup_insert_eq in H2; congruence|].
      rewrite lookup_insert_ne in H1, H2 by done. by eapply Hinj.
  - apply standardOptions_spec in Hopt as [Harr Hfree]. split.
    + intros k w. destruct (decide (k = key)) as [->|Hne].
      * rewrite lookup_insert_eq. intros [= <-]. split; [done | by right].
      * rewrite lookup_insert_ne by done. apply Hdom.
    + intros k1 k2 w H1 H2 Hw.
      destruct (decide (k1 = key)) as [->|Hne1],
               (decide (k2 = key)) as [->|Hne2]; [done | | |].
      * rewrite lookup_insert_eq in H1. injection H1 as <-.
        rewrite lookup_insert_ne in H2 by done.
        destruct Hfree as [Hfree|Hown].
        -- exfalso. apply Hfree. by exists k2.
        -- by eapply Hinj.
      * rewrite lookup_insert_eq in H2. injection H2 as <-.
        rewrite lookup_insert_ne in H1 by done.
        destruct Hfree as [Hfree|Hown].
        -- exfalso. apply Hfree. by exists k1.
        -- by eapply Hinj.
      * rewrite lookup_insert_ne in H1, H2 by done. by eapply Hinj.
Qed.

(** Every assignment the form can hold is well formed. *)
Lemma selectable_well_assigned (assigned : gmap string Z) :
  selectable assigned -> well_assigned assigned.
Proof.
  unfold selectable. revert assigned. apply rtc_ind_r.
  - split; intros *; by rewrite lookup_empty.
  - intros mid final _ Hstep IH. by eapply select_step_well_assigned.
Qed.

Lemma NoDup_abilityKeys : NoDup abilityKeys.
Proof. apply (bool_decide_unpack _). by vm_compute. Qed.

(** A well-formed assignment that gives every ability a value is a
    bijection between the abilities and the array. *)
Lemma well_assigned_bijection (assigned : gmap string Z) :
  well_assigned assigned ->
  (forall k, k ∈ abilityKeys -> exists v, assigned !! k = Some v /\ v <> 0) ->
  assignedValues assigned ≡ₚ STANDARD_ARRAY.
Proof.
  intros [Hdom Hinj] Hall. unfold assignedValues.
  apply submseteq_length_Permutation; [|by rewrite length_fmap].
  apply NoDup_submseteq.
  - apply NoDup_fmap_2_strong; [|exact NoDup_abilityKeys].
    intros k1 k2 Hk1 Hk2.
    destruct (Hall k1 Hk1) as (v1 & E1 & Hv1).
    destruct (Hall k2 Hk2) as (v2 & E2 & Hv2).
    rewrite E1, E2. cbn. intros <-. by eapply Hinj.
  - intros v (k & -> & Hk)%list_elem_of_fmap.
    destruct (Hall k Hk) as (w & E & Hw). rewrite E. cbn.
    by destruct (Hdom k w E) as [_ [?|?]].
Qed.

(** The check itself only looks for a value other than 0 at each
    ability: on the assignment of 15 to all six abilities it would pass.
    The form cannot hold that assignment, since a select does not offer
    a value that another ability holds. *)
Lemma all_fifteen_not_selectable :
  (validateAbilities (standard_form all_fifteen)).1 = true
  /\ ~ selectable all_fifteen.
Proof.
  split; [by vm_compute|].
  intros [_ Hinj]%selectable_well_assigned.
  by specialize (Hinj "strength" "dexterity" 15 eq_refl eq_refl ltac:(lia)).
Qed.

(** A permutation of the array gives every ability a value other than
    0. *)
Lemma bijection_assigns_all (assigned : gmap string Z) :
  assignedValues assigned ≡ₚ STANDARD_ARRAY ->
  forall k, k ∈ abilityKeys -> exists v, assigned !! k = Some v /\ v <> 0.
Proof.
  intros Hperm k Hk.
  assert (Hin : nullish (assigned !! k) 0 ∈ STANDARD_ARRAY).
  { rewrite <- Hperm. unfold assignedValues.
    apply list_elem_of_fmap. by exists k. }
  destruct (assigned !! k) as [v|]; cbn [nullish] in Hin.
  - exists v. split; [done|]. intros ->. revert Hin.
    unfold STANDARD_ARRAY. rewrite !elem_of_cons, elem_of_nil. lia.
  - exfalso. revert Hin.
    unfold STANDARD_ARRAY. rewrite !elem_of_cons, elem_of_nil. lia.
Qed.

(** C7.  For every assignment the form can hold in standard-array mode
    (one reached from the empty assignment through the selects, which
    offer an ability the placeholder and the array values that no other
    ability holds): the Abilities stage validates exactly when the
    assignment is a bijection between the six abilities and
    {15, 14, 13, 12, 10, 8}, that is, when each ability has a value other
    than 0.  An assignment that leaves an array value unused fails
    validation; an array value is never held by two abilities.  A failed
    validation keeps the form on the Abilities stage with an error; a
    passed one moves it to the review stage. *)
Theorem standard_validation_spec (st : FormState) :
  abilityMethod st = standard ->
  selectable (standardAssigned st) ->
  ((validateAbilities st).1 = true
   <-> assignedValues (standardAssigned st) ≡ₚ STANDARD_ARRAY)
  /\ ((validateAbilities st).1 = true
      <-> forall k, k ∈ abilityKeys ->
            exists v, standardAssigned st !! k = Some v /\ v <> 0)
  /\ (forall v, v ∈ STANDARD_ARRAY ->
        v ∉ assignedValues (standardAssigned st) ->
        (validateAbilities st).1 = false)
  /\ (forall k1 k2 v,
        standardAssigned st !! k1 = Some v ->
        standardAssigned st !! k2 = Some v -> v <> 0 -> k1 = k2)
  /\ (forall vBasic vClass vBackground vSpecies,
        creationTab st = tab_abilities ->
        let st' := goNext vBasic vClass vBackground vSpecies st in
        ((validateAbilities st).1 = false ->
           creationTab st' = tab_abilities /\ abilitiesError st' <> None)
        /\ ((validateAbilities st).1 = true -> creationTab st' = tab_review)).
Proof.
  intros Hm Hsel.
  assert (Hiff : (validateAbilities st).1 = true
                 <-> standardAssignedAll st = true).
  { unfold validateAbilities. rewrite Hm.
    by destruct (standardAssignedAll st). }
  pose proof (selectable_well_assigned _ Hsel) as Hwell.
  assert (Hbij : (validateAbilities st).1 = true
                 <-> assignedValues (standardAssigned st) ≡ₚ STANDARD_ARRAY).
  { rewrite Hiff, standardAssignedAll_spec. split.
    - by apply well_assigned_bijection.
    - apply bijection_assigns_all. }
  split; [exact Hbij|].
  split; [by rewrite Hiff, standardAssignedAll_spec|].
  split; [|split].
  - intros v Hv Hout.
    destruct (validateAbilities st).1 eqn:E; [|done].
    exfalso. apply Hout. by rewrite (proj1 Hbij eq_refl).
  - intros k1 k2 v H1 H2 Hv. destruct Hwell as [_ Hinj]. by eapply Hinj.
  - intros vB vC vG vS Ht. unfold goNext. rewrite Ht.
    unfold validateAbilities. rewrite Hm.
    destruct (standardAssignedAll st); cbn; split; done.
Qed.

(** The array chosen in order, strength 15 down to charisma 8, can be
    made through the selects, is a bijection and passes validation. *)
Lemma standard_in_order_example :
  selectable in_order
  /\ assignedValues in_order ≡ₚ STANDARD_ARRAY
  /\ (validateAbilities (standard_form in_order)).1 = true.
Proof.
  assert (Hsel : selectable in_order).
  { unfold selectable.
    eapply rtc_r; [eapply rtc_r; [eapply rtc_r; [eapply rtc_r;
      [eapply rtc_r; [eapply rtc_r; [apply rtc_refl|]|]|]|]|]|].
    - apply (select_option _ "charisma" 8); by vm_compute; set_solver.
    - apply (select_option _ "wisdom" 10); by vm_compute; set_solver.
    - apply (select_option _ "intelligence" 12); by vm_compute; set_solver.
    - apply (select_option _ "constitution" 13); by vm_compute; set_solver.
    - apply (select_option _ "dexterity" 14); by vm_compute; set_solver.
    - apply (select_option _ "strength" 15); by vm_compute; set_solver. }
  assert (Hperm : assignedValues in_order ≡ₚ STANDARD_ARRAY) by reflexivity.
  destruct (standard_validation_spec (standard_form in_order))
    as (Hbij & _); [reflexivity | exact Hsel |].
  split; [exact Hsel|]. split; [exact Hperm|].
  by apply Hbij.
Defined.

(* ------------------------------------------------------------------- *)
(** ** Point buy                                                         *)
(* ------------------------------------------------------------------- *)

(** The table read with [?? 0] is the per-step cost. *)
Lemma table_step (t : Z) : nullish (table !! t) 0 = spec_step_cost t.
Proof.
  destruct (decide (9 <= t <= 15)) as [Hin|Hout].
  - assert (Hcases : t = 9 \/ t = 10 \/ t = 11 \/ t = 12 \/ t = 13
                     \/ t = 14 \/ t = 15) by lia.
    repeat (destruct Hcases as [->|Hcases]; [reflexivity|]).
    by subst.
  - unfold table. rewrite not_elem_of_list_to_map_1.
    + unfold spec_step_cost. cbn.
      destruct (Z.leb_spec 9 t), (Z.leb_spec t 13), (Z.leb_spec 14 t),
        (Z.leb_spec t 15); cbn; lia.
    + cbn. rewrite !elem_of_cons, elem_of_nil. lia.
Qed.

(** The loop adds the step costs of [s, s + 1, ..., score]. *)
Lemma cost_loop_sum (fuel : nat) (s score cost : Z) :
  (Z.to_nat (score - s + 1) <= fuel)%nat ->
  cost_loop fuel s score cost
  = cost + foldr (fun t acc => spec_step_cost t + acc) 0
             (seqZ s (score - s + 1)).
Proof.
  revert s cost. induction fuel as [|fuel IH]; intros s cost Hfuel; cbn.
  - rewrite seqZ_nil by lia. cbn. lia.
  - destruct (Z.leb_spec s score) as [Hle|Hgt].
    + rewrite IH by lia. rewrite table_step.
      rewrite (seqZ_cons s) by lia. cbn.
      replace (Z.pred (score - s + 1)) with (score - (s + 1) + 1) by lia.
      replace (Z.succ s) with (s + 1) by lia. lia.
    + rewrite seqZ_nil by lia. cbn. lia.
Qed.

(** [pointBuyCostFor] is the spec's sum over [t = 9..s]. *)
Lemma pointBuyCostFor_sum (s : Z) : pointBuyCostFor s = spec_pointBuyCost s.
Proof.
  unfold pointBuyCostFor, spec_pointBuyCost.
  destruct (Z.leb_spec s 8).
  - by rewrite seqZ_nil by lia.
  - rewrite cost_loop_sum by lia.
    replace (s - 9 + 1) with (s - 8) by lia. lia.
Qed.

(** The total over a map that holds the six abilities. *)
Lemma pointBuyTotal_six (a b c d e f : Z) :
  pointBuyTotal (list_to_map (zip abilityKeys [a; b; c; d; e; f]))
  = pointBuyCostFor a + pointBuyCostFor b + pointBuyCostFor c
    + pointBuyCostFor d + pointBuyCostFor e + pointBuyCostFor f.
Proof.
  assert (E : Object_values (list_to_map (zip abilityKeys [a; b; c; d; e; f]))
              = [e; a; c; f; d; b]) by (vm_compute; reflexivity).
  unfold pointBuyTotal. rewrite E. cbn [fold_left]. lia.
Qed.

(** C8.  The point-buy cost of a score [s] is the sum over [t = 9..s] of
    the step cost, 1 for [t] in 9..13 and 2 for [t] in 14..15, so the
    costs of 8, 13 and 15 are 0, 5 and 9; in point-buy mode the
    Abilities stage validates exactly when the total cost of the scores
    is at most 27, the total being the sum of the six costs; and a total
    above 27 keeps the form on the Abilities stage with an error when
    the user asks for the next stage. *)
Theorem pointBuy_cost_and_budget :
  (forall s, pointBuyCostFor s = spec_pointBuyCost s)
  /\ (forall t, 9 <= t <= 13 -> spec_step_cost t = 1)
  /\ (forall t, 14 <= t <= 15 -> spec_step_cost t = 2)
  /\ pointBuyCostFor 8 = 0
  /\ pointBuyCostFor 13 = 5
  /\ pointBuyCostFor 15 = 9
  /\ (forall a b c d e f,
        pointBuyTotal (list_to_map (zip abilityKeys [a; b; c; d; e; f]))
        = pointBuyCostFor a + pointBuyCostFor b + pointBuyCostFor c
          + pointBuyCostFor d + pointBuyCostFor e + pointBuyCostFor f)
  /\ (forall st, abilityMethod st = pointbuy ->
        ((validateAbilities st).1 = true
         <-> pointBuyTotal (pointBuyScores st) <= 27))
  /\ (forall vBasic vClass vBackground vSpecies st,
        abilityMethod st = pointbuy ->
        creationTab st = tab_abilities ->
        27 < pointBuyTotal (pointBuyScores st) ->
        let st' := goNext vBasic vClass vBackground vSpecies st in
        creationTab st' = tab_abilities /\ abilitiesError st' <> None).
Proof.
  split; [exact pointBuyCostFor_sum|].
  split. { intros t Ht. unfold spec_step_cost.
           destruct (Z.leb_spec 9 t), (Z.leb_spec t 13); cbn; lia. }
  split. { intros t Ht. unfold spec_step_cost.
           destruct (Z.leb_spec 9 t), (Z.leb_spec t 13), (Z.leb_spec 14 t),
             (Z.leb_spec t 15); cbn; lia. }
  do 3 (split; [reflexivity|]).
  split; [exact pointBuyTotal_six|].
  split.
  - intros st Hm. unfold validateAbilities. rewrite Hm.
    destruct (Z.gtb_spec (pointBuyTotal (pointBuyScores st)) 27); cbn;
      split; (lia || discriminate || done).
  - intros vB vC vG vS st Hm Ht Hover. unfold goNext. rewrite Ht.
    unfold validateAbilities. rewrite Hm.
    destruct (Z.gtb_spec (pointBuyTotal (pointBuyScores st)) 27); [|lia].
    cbn. by split.
Qed.

(** Three scores of 15 and three of 8 cost exactly 27 and pass; raising
    one 8 to 9 costs 28 and fails. *)
Lemma pointBuy_examples :
  spec_pointBuyCost 13 = 5
  /\ (validateAbilities (pointbuy_form [15; 15; 15; 8; 8; 8])).1 = true
  /\ (validateAbilities (pointbuy_form [15; 15; 15; 9; 8; 8])).1 = false.
Proof.
  destruct pointBuy_cost_and_budget
    as (Hsum & _ & _ & _ & H13 & _ & Htotal & Hvalid & _).
  split; [by rewrite <- Hsum|]. split.
  - apply Hvalid; [reflexivity|]. by vm_compute.
  - destruct (validateAbilities (pointbuy_form [15; 15; 15; 9; 8; 8])).1 eqn:E;
      [|reflexivity].
    apply Hvalid in E; [|reflexivity]. by vm_compute in E.
Defined.

End FormProperties.

(* ===================================================================== *)
(** * More about the sheet (src/pages/CharacterSheet.tsx,                 *)
(** * src/types/character.ts)                                             *)
(* ===================================================================== *)

Module SheetExtras.
Import Js CharacterTypes CharacterSheet SheetHandlers JsFacts DerivedStats
  Samples MoreSamples.

Ltac frame :=
  let f := fresh "f" in
  let Hf := fresh "Hf" in
  intros f Hf; destruct f; try reflexivity; exfalso; apply Hf;
  repeat first [apply list_elem_of_here | apply list_elem_of_further].

(* ------------------------------------------------------------------- *)
(** ** Proficiency                                                       *)
(* ------------------------------------------------------------------- *)

(** X1.  The proficiency bonus never decreases with the level, grows by
    exactly 1 every four levels, and over the levels 1 to 20 runs from 2
    to 6. *)
Theorem getProficiencyBonus_steps :
  (forall l1 l2, l1 <= l2 -> getProficiencyBonus l1 <= getProficiencyBonus l2)
  /\ (forall l, getProficiencyBonus (l + 4) = getProficiencyBonus l + 1)
  /\ (forall l, 1 <= l <= 20 ->
        2 <= getProficiencyBonus l <= 6
        /\ (getProficiencyBonus l = 2 <-> l <= 4)
        /\ (getProficiencyBonus l = 6 <-> 17 <= l)).
Proof.
  split; [|split].
  - intros l1 l2 Hle. rewrite !getProficiencyBonus_floor.
    apply Z.add_le_mono_r, Z.div_le_mono; lia.
  - intros l. rewrite !getProficiencyBonus_floor.
    replace (l + 4 - 1) with ((l - 1) + 1 * 4) by lia.
    rewrite Z.div_add by lia. lia.
  - intros l Hl. rewrite getProficiencyBonus_floor.
    pose proof (Z.div_mod (l - 1) 4 ltac:(lia)).
    pose proof (Z.mod_pos_bound (l - 1) 4 ltac:(lia)). lia.
Qed.

(** X2.  For a proficiency bonus that is not negative, the four proficiency
    states are ordered none <= half <= proficient <= expertise, expertise
    adds twice what proficiency adds, and any other state adds nothing. *)
Theorem effectiveModifier_order (baseMod profBonus : Z) :
  0 <= profBonus ->
  effectiveModifier baseMod 0 profBonus = baseMod
  /\ effectiveModifier baseMod 1 profBonus = baseMod + profBonus
  /\ effectiveModifier baseMod 2 profBonus = baseMod + profBonus `div` 2
  /\ effectiveModifier baseMod 3 profBonus = baseMod + 2 * profBonus
  /\ effectiveModifier baseMod 0 profBonus
     <= effectiveModifier baseMod 2 profBonus
  /\ effectiveModifier baseMod 2 profBonus
     <= effectiveModifier baseMod 1 profBonus
  /\ effectiveModifier baseMod 1 profBonus
     <= effectiveModifier baseMod 3 profBonus
  /\ (forall profState, ~ (1 <= profState <= 3) ->
        effectiveModifier baseMod profState profBonus = baseMod).
Proof.
  intros Hpb.
  assert (E2 : effectiveModifier baseMod 2 profBonus
               = baseMod + profBonus `div` 2)
    by (unfold effectiveModifier; by rewrite Math_floor_num_div by lia).
  rewrite E2. unfold effectiveModifier. cbn.
  pose proof (Z.div_pos profBonus 2 Hpb ltac:(lia)).
  pose proof (Z.div_le_upper_bound profBonus 2 profBonus ltac:(lia) ltac:(lia)).
  repeat split; try lia.
  intros profState Hout.
  destruct (Z.eqb_spec profState 1), (Z.eqb_spec profState 2),
    (Z.eqb_spec profState 3); lia.
Qed.

(** At level 5 (bonus 3) a base modifier of 2 gives 2, 3, 5 and 8. *)
Lemma effectiveModifier_example :
  effectiveModifier 2 0 (getProficiencyBonus 5) = 2
  /\ effectiveModifier 2 2 (getProficiencyBonus 5) = 3
  /\ effectiveModifier 2 1 (getProficiencyBonus 5) = 5
  /\ effectiveModifier 2 3 (getProficiencyBonus 5) = 8.
Proof.
  destruct (effectiveModifier_order 2 (getProficiencyBonus 5))
    as (E0 & E1 & E2 & E3 & _); [by vm_compute|].
  rewrite E0, E1, E2, E3. by vm_compute.
Defined.

(** X3.  The ability modifier never decreases with the score, grows by
    exactly 1 every two points, is 0 for the scores 10 and 11, and over
    the scores 1 to 30 runs from -5 to 10. *)
Theorem getAbilityModifier_steps :
  (forall s1 s2, s1 <= s2 -> getAbilityModifier s1 <= getAbilityModifier s2)
  /\ (forall s, getAbilityModifier (s + 2) = getAbilityModifier s + 1)
  /\ (forall s, getAbilityModifier s = 0 <-> 10 <= s <= 11)
  /\ (forall s, 1 <= s <= 30 -> -5 <= getAbilityModifier s <= 10).
Proof.
  assert (E : forall s, getAbilityModifier s = (s - 10) `div` 2)
    by (intros s; unfold getAbilityModifier; by rewrite Math_floor_num_div).
  split; [|split; [|split]].
  - intros s1 s2 Hle. rewrite !E. apply Z.div_le_mono; lia.
  - intros s. rewrite !E.
    replace (s + 2 - 10) with ((s - 10) + 1 * 2) by lia.
    by rewrite Z.div_add by lia.
  - intros s. rewrite E.
    pose proof (Z.div_mod (s - 10) 2 ltac:(lia)).
    pose proof (Z.mod_pos_bound (s - 10) 2 ltac:(lia)). lia.
  - intros s Hs. rewrite E.
    pose proof (Z.div_mod (s - 10) 2 ltac:(lia)).
    pose proof (Z.mod_pos_bound (s - 10) 2 ltac:(lia)). lia.
Qed.

(* ------------------------------------------------------------------- *)
(** ** Used abilities                                                    *)
(* ------------------------------------------------------------------- *)

Lemma toggleUsedAbility_run (abilityId : string) (c : Character) :
  exists c',
    toggleUsedAbility abilityId c = Some c'
    /\ usedList c'
       = (if bool_decide (abilityId ∈ usedList c)
          then filter (fun id => id ≠ abilityId) (usedList c)
          else usedList c ++ [abilityId])
    /\ same_except [f_used_abilities] c c'.
Proof. eexists. split; [reflexivity|]. split; [reflexivity | frame]. Qed.

(** X4.  Toggling an ability id flips whether it counts as used, and changes
    that of no other id and no other field. *)
Theorem toggleUsedAbility_membership (abilityId : string) (c : Character) :
  exists c',
    toggleUsedAbility abilityId c = Some c'
    /\ (abilityId ∈ usedList c' <-> abilityId ∉ usedList c)
    /\ (forall other, other ≠ abilityId ->
          (other ∈ usedList c' <-> other ∈ usedList c))
    /\ same_except [f_used_abilities] c c'.
Proof.
  destruct (toggleUsedAbility_run abilityId c) as (c' & E & Hlist & Hframe).
  exists c'. split; [exact E|]. rewrite Hlist.
  case_bool_decide as Hin; (split; [|split; [|exact Hframe]]).
  - rewrite list_elem_of_filter. tauto.
  - intros other Hne. rewrite list_elem_of_filter. tauto.
  - rewrite elem_of_app, list_elem_of_singleton. tauto.
  - intros other Hne. rewrite elem_of_app, list_elem_of_singleton. tauto.
Qed.

Lemma filter_out_absent (x : string) (l : list string) :
  x ∉ l -> filter (fun id => id ≠ x) l = l.
Proof.
  induction l as [|y l IH]; [done|]. rewrite not_elem_of_cons.
  intros [Hne Hl]. rewrite filter_cons_True by done. by rewrite IH.
Qed.

Lemma filter_out_present (x : string) (l : list string) :
  NoDup l -> x ∈ l -> l ≡ₚ x :: filter (fun id => id ≠ x) l.
Proof.
  induction 1 as [|y l Hy Hnd IH]; [by rewrite elem_of_nil|].
  rewrite elem_of_cons. destruct (decide (y = x)) as [->|Hne].
  - intros _. rewrite filter_cons_False by tauto.
    by rewrite filter_out_absent.
  - intros [->|Hin]; [done|]. rewrite filter_cons_True by done.
    rewrite (IH Hin) at 1. apply perm_swap.
Qed.

(** X5.  On a list of used abilities without repetitions, toggling the same
    id twice gives back the same abilities, in the same order when the id
    was not used before (otherwise the id moves to the end); the list
    never gets a repetition. *)
Theorem toggleUsedAbility_twice (abilityId : string) (c : Character) :
  NoDup (usedList c) ->
  exists c' c'',
    toggleUsedAbility abilityId c = Some c'
    /\ toggleUsedAbility abilityId c' = Some c''
    /\ NoDup (usedList c')
    /\ usedList c'' ≡ₚ usedList c
    /\ (abilityId ∉ usedList c -> usedList c'' = usedList c)
    /\ same_except [f_used_abilities] c c''.
Proof.
  intros Hnd.
  destruct (toggleUsedAbility_run abilityId c) as (c' & E & Hlist & Hframe).
  destruct (toggleUsedAbility_run abilityId c') as (c'' & E' & Hlist' & Hframe').
  exists c', c''. split; [exact E|]. split; [exact E'|].
  assert (Hkeep : same_except [f_used_abilities] c c'').
  { intros f Hf. specialize (Hframe f Hf). specialize (Hframe' f Hf).
    destruct f; cbn in *; congruence. }
  destruct (decide (abilityId ∈ usedList c)) as [Hin|Hout].
  - rewrite bool_decide_eq_true_2 in Hlist by done.
    assert (Hgone : abilityId ∉ usedList c')
      by (rewrite Hlist, list_elem_of_filter; tauto).
    rewrite bool_decide_eq_false_2 in Hlist' by done.
    rewrite Hlist', Hlist.
    split; [by apply NoDup_filter|]. split; [|done].
    rewrite (filter_out_present abilityId (usedList c)) at 2 by done.
    symmetry. apply Permutation_cons_append.
  - rewrite bool_decide_eq_false_2 in Hlist by done.
    assert (Hthere : abilityId ∈ usedList c')
      by (rewrite Hlist, elem_of_app, list_elem_of_singleton; by right).
    rewrite bool_decide_eq_true_2 in Hlist' by done.
    rewrite Hlist', Hlist.
    rewrite filter_app, filter_out_absent by done.
    rewrite filter_cons_False, filter_nil, app_nil_r by tauto.
    split; [|done].
    apply NoDup_app. split; [done|]. split; [|apply NoDup_singleton].
    intros x Hx ->%list_elem_of_singleton. done.
Qed.

(** Marking a second ability on the tired bard and unmarking it again
    gives back ["x"]. *)
Lemma toggleUsedAbility_example :
  exists c' c'',
    toggleUsedAbility "relentless_endurance" tired_bard = Some c'
    /\ toggleUsedAbility "relentless_endurance" c' = Some c''
    /\ usedList c'' = ["x"].
Proof.
  destruct (toggleUsedAbility_twice "relentless_endurance" tired_bard)
    as (c' & c'' & E & E' & _ & _ & Hsame & _).
  - apply (bool_decide_unpack _). by vm_compute.
  - exists c', c''. split; [exact E|]. split; [exact E'|].
    apply Hsame. apply (bool_decide_unpack _). by vm_compute.
Defined.

(* ------------------------------------------------------------------- *)
(** ** Removing an item or a spell                                       *)
(* ------------------------------------------------------------------- *)

Lemma filter_out_index_from {A : Type} (index : Z) (l : list A) (n : nat) :
  (List.filter (fun ix => negb (Z.of_nat ix.1 =? index))
     (zip (seq n (length l)) l)).*2
  = if decide (Z.of_nat n <= index < Z.of_nat n + Z.of_nat (length l))
    then delete (Z.to_nat index - n)%nat l
    else l.
Proof.
  revert n. induction l as [|x l IH]; intros n; cbn [length seq zip zip_with].
  - cbn. by case_decide.
  - cbn [List.filter fst].
    destruct (Z.eqb_spec (Z.of_nat n) index) as [<-|Hne]; cbn [negb].
    + rewrite IH, decide_False by lia. rewrite decide_True by lia.
      by replace (Z.to_nat (Z.of_nat n) - n)%nat with O by lia.
    + rewrite fmap_cons, IH. cbn [snd].
      case_decide as H1; case_decide as H2; try lia; [|done].
      replace (Z.to_nat index - n)%nat with (S (Z.to_nat index - S n)) by lia.
      done.
Qed.

(** Outside the array the filter keeps everything; inside it drops the
    one element at that position. *)
Lemma filter_out_index_spec {A : Type} (index : Z) (l : list A) :
  (~ (0 <= index < Z.of_nat (length l)) -> filter_out_index index l = l)
  /\ (0 <= index < Z.of_nat (length l) ->
      filter_out_index index l = delete (Z.to_nat index) l
      /\ length (filter_out_index index l) = (length l - 1)%nat).
Proof.
  unfold filter_out_index. rewrite filter_out_index_from.
  split; intros H.
  - by rewrite decide_False by lia.
  - rewrite decide_True by lia. rewrite Nat.sub_0_r. split; [done|].
    rewrite length_delete; [lia|]. apply lookup_lt_is_Some_2. lia.
Qed.

(** X6.  Confirming a removal with nothing pending does nothing.  With an
    equipment entry pending, an index outside the equipment list leaves
    the list as it is, and an index inside it removes exactly the item at
    that position; the spells and every other field are untouched.  A
    pending spell is removed from the spells in the same way, the
    equipment staying as it is. *)
Theorem confirmRemoveItem_spec (index : Z) (c : Character) :
  confirmRemoveItem None c = None
  /\ (exists c',
        confirmRemoveItem (Some (pending_equipment, index)) c = Some c'
        /\ spells (profile c') = spells (profile c)
        /\ currency (profile c') = currency (profile c)
        /\ same_except [f_profile] c c'
        /\ (~ (0 <= index < Z.of_nat (length (equipment (profile c)))) ->
            equipment (profile c') = equipment (profile c))
        /\ (0 <= index < Z.of_nat (length (equipment (profile c))) ->
            equipment (profile c')
            = delete (Z.to_nat index) (equipment (profile c))
            /\ length (equipment (profile c'))
               = (length (equipment (profile c)) - 1)%nat))
  /\ (exists c',
        confirmRemoveItem (Some (pending_spell, index)) c = Some c'
        /\ equipment (profile c') = equipment (profile c)
        /\ currency (profile c') = currency (profile c)
        /\ same_except [f_profile] c c'
        /\ (~ (0 <= index < Z.of_nat (length (spells (profile c)))) ->
            spells (profile c') = spells (profile c))
        /\ (0 <= index < Z.of_nat (length (spells (profile c))) ->
            spells (profile c') = delete (Z.to_nat index) (spells (profile c))
            /\ length (spells (profile c'))
               = (length (spells (profile c)) - 1)%nat)).
Proof.
  split; [reflexivity|]. split.
  - eexists. split; [reflexivity|]. cbn.
    destruct (filter_out_index_spec index (equipment (profile c))) as [Ho Hi].
    repeat split; try frame; auto; by apply Hi.
  - eexists. split; [reflexivity|]. cbn.
    destruct (filter_out_index_spec index (spells (profile c))) as [Ho Hi].
    repeat split; try frame; auto; by apply Hi.
Qed.

(* ------------------------------------------------------------------- *)
(** ** Currency                                                          *)
(* ------------------------------------------------------------------- *)

(** X7.  Editing a coin stores [max(0, n)] for an entered integer [n] and 0
    for an entry that is not a number, so the edited coin is never
    negative; the other three coins keep the amounts the sheet showed,
    the equipment and every field outside the currency are untouched; and
    if no coin was negative before, none is afterwards. *)
Theorem currency_onChange_spec (coin : Coin) (parsed : option Z)
    (c : Character) :
  exists c',
    currency_onChange coin parsed c = Some c'
    /\ coins coin c' = Z.max 0 (nullish parsed 0)
    /\ 0 <= coins coin c'
    /\ (forall other, other <> coin -> coins other c' = coins other c)
    /\ ((forall k, 0 <= coins k c) -> forall k, 0 <= coins k c')
    /\ equipment (profile c') = equipment (profile c)
    /\ spells (profile c') = spells (profile c)
    /\ same_except [f_profile] c c'.
Proof.
  eexists. split; [reflexivity|].
  assert (E : or_opt_num parsed 0 = nullish parsed 0).
  { destruct parsed as [n|]; cbn; [|done]. unfold or_num.
    destruct (Z.eqb_spec n 0); lia. }
  destruct coin; cbn; rewrite E;
    (split; [reflexivity|]); (split; [lia|]);
    (split; [intros other Hne; by destruct other|]);
    (split; [intros Hall k; destruct k; cbn; try apply Hall; lia|]);
    (split; [reflexivity|]); (split; [reflexivity|]); frame.
Qed.

(* ------------------------------------------------------------------- *)
(** ** Hit dice                                                          *)
(* ------------------------------------------------------------------- *)

Lemma or_num_level (l : Z) : 1 <= l -> or_num l 1 = l.
Proof. intros Hl. unfold or_num. destruct (Z.eqb_spec l 0); lia. Qed.

Lemma or_num_same (x : Z) : or_num x 0 = x.
Proof. unfold or_num. destruct (Z.eqb_spec x 0); lia. Qed.

(** X8.  For a character with a stored maximum and a hit die to spend:
    hit points within the maximum never go down and stay within it; hit
    points above the maximum are brought down to it; and the amount the
    dialog reports as recovered is at least the amount gained. *)
Theorem spendHitDie_heals (u : Q) (c : Character) (m : Z) :
  max_hit_points c = Some m ->
  0 < nullish (hit_dice_remaining c) (or_num (level c) 1) ->
  exists c' info healed,
    spendHitDie_onClick u c = Some (c', info)
    /\ lastTotal info = Some healed
    /\ 0 <= healed
    /\ hit_points c' - hit_points c <= healed
    /\ (hit_points c <= m -> hit_points c <= hit_points c' <= m)
    /\ (m < hit_points c -> hit_points c' = m).
Proof.
  intros Hm Hav. unfold spendHitDie_onClick. cbv zeta. rewrite Hm.
  destruct (Z.leb_spec (nullish (hit_dice_remaining c) (or_num (level c) 1)) 0);
    [lia|].
  do 3 eexists. split; [reflexivity|]. split; [reflexivity|].
  rewrite or_num_same. cbn. lia.
Qed.

(** The tired bard with two dice and the random source at 0 (a roll of
    1, CON modifier 2) goes from 5 to 8 hit points. *)
Lemma spendHitDie_heals_example :
  exists c' info,
    spendHitDie_onClick 0 bard_with_dice = Some (c', info)
    /\ lastTotal info = Some 3 /\ hit_points c' = 8.
Proof.
  destruct (spendHitDie_heals 0 bard_with_dice 20)
    as (c' & info & healed & E & Ht & _); [reflexivity | by vm_compute |].
  exists c', info. split; [exact E|].
  vm_compute in E. injection E as <- <-. by vm_compute.
Defined.

Lemma spendHitDie_dice (u : Q) (c : Character) (r : Z) :
  hit_dice_remaining c = Some r -> 0 <= r ->
  let c' := next_state c (fst <$> spendHitDie_onClick u c) in
  hit_dice_remaining c' = Some (Z.max 0 (r - 1)).
Proof.
  intros Hr Hpos. unfold spendHitDie_onClick. cbv zeta. rewrite Hr. cbn [nullish].
  destruct (Z.leb_spec r 0); cbn; [rewrite Hr; f_equal; lia | done].
Qed.

(** X9.  With [r >= 0] hit dice stored, pressing "Spend 1 Hit Die" [n] times
    leaves [max(0, r - n)]: each press that has a die takes exactly one,
    and once they are used up the button changes nothing. *)
Theorem spendHitDice_count (us : list Q) (c : Character) (r : Z) :
  hit_dice_remaining c = Some r -> 0 <= r ->
  hit_dice_remaining (spendHitDice us c)
  = Some (Z.max 0 (r - Z.of_nat (length us)))
  /\ (r <= Z.of_nat (length us) ->
      forall u, spendHitDie_onClick u (spendHitDice us c) = None).
Proof.
  intros Hr Hpos.
  assert (Hcount : hit_dice_remaining (spendHitDice us c)
                   = Some (Z.max 0 (r - Z.of_nat (length us)))).
  { unfold spendHitDice. revert c r Hr Hpos.
    induction us as [|u us IH]; intros c r Hr Hpos; cbn [fold_left length].
    - rewrite Hr. f_equal. lia.
    - rewrite (IH _ (Z.max 0 (r - 1))); [f_equal; lia | | lia].
      by apply spendHitDie_dice. }
  split; [exact Hcount|].
  intros Hall u. unfold spendHitDie_onClick. cbv zeta. rewrite Hcount.
  cbn [nullish]. destruct (Z.leb_spec (Z.max 0 (r - Z.of_nat (length us))) 0);
    [done | lia].
Qed.

(** Two dice, three presses: none is left and a fourth press does
    nothing. *)
Lemma spendHitDice_example :
  hit_dice_remaining (spendHitDice three_draws bard_with_dice) = Some 0
  /\ spendHitDie_onClick (1 # 2)
       (spendHitDice three_draws bard_with_dice) = None.
Proof.
  destruct (spendHitDice_count three_draws bard_with_dice 2)
    as [Hcount Hnone]; [reflexivity | lia |].
  split; [exact Hcount|]. apply Hnone. cbn. lia.
Defined.

Lemma longRest_dice (c : Character) (r : Z) :
  1 <= level c -> hit_dice_remaining c = Some r ->
  let c' := next_state c (longRest_onConfirm c) in
  level c' = level c
  /\ hit_dice_remaining c'
     = Some (Z.min (level c) (r + Z.max 1 (level c `div` 2))).
Proof.
  intros Hl Hr. unfold longRest_onConfirm. cbv zeta.
  rewrite Hr, or_num_level, Math_floor_num_div by lia. cbn. done.
Qed.

Lemma longRests_dice (n : nat) (c : Character) (r : Z) :
  1 <= level c -> hit_dice_remaining c = Some r ->
  level (longRests (S n) c) = level c
  /\ hit_dice_remaining (longRests (S n) c)
     = Some (Z.min (level c)
               (r + Z.of_nat (S n) * Z.max 1 (level c `div` 2))).
Proof.
  intros Hl Hr. induction n as [|n [IHl IHd]].
  - change (longRests 1 c) with (next_state c (longRest_onConfirm c)).
    destruct (longRest_dice c r Hl Hr) as [El Ed].
    split; [exact El|]. rewrite Ed. f_equal. lia.
  - change (longRests (S (S n)) c)
      with (next_state (longRests (S n) c)
              (longRest_onConfirm (longRests (S n) c))).
    destruct (longRest_dice _ _ ltac:(rewrite IHl; exact Hl) IHd) as [El Ed].
    rewrite El, Ed, IHl. split; [done|]. f_equal.
    pose proof (Z.div_pos (level c) 2). nia.
Qed.

(** X10.  From any stored count [r >= 0], three long rests in a row give back
    every hit die, and two do when the level is even; one long rest gives
    back at least one die, up to the level. *)
Theorem longRests_restore_hit_dice (c : Character) (r : Z) :
  1 <= level c -> hit_dice_remaining c = Some r -> 0 <= r ->
  hit_dice_remaining (longRests 3 c) = Some (level c)
  /\ (Z.even (level c) = true ->
      hit_dice_remaining (longRests 2 c) = Some (level c))
  /\ (exists r1,
        hit_dice_remaining (longRests 1 c) = Some r1
        /\ Z.min (level c) (r + 1) <= r1 <= level c).
Proof.
  intros Hl Hr Hpos.
  pose proof (Z.div_mod (level c) 2 ltac:(lia)) as Hdm.
  pose proof (Z.mod_pos_bound (level c) 2 ltac:(lia)) as Hb.
  split; [|split].
  - destruct (longRests_dice 2 c r Hl Hr) as [_ ->]. f_equal. lia.
  - intros Heven. destruct (longRests_dice 1 c r Hl Hr) as [_ ->]. f_equal.
    apply Z.even_spec in Heven as [k Hk]. lia.
  - destruct (longRests_dice 0 c r Hl Hr) as [_ ->]. eexists.
    split; [reflexivity|]. lia.
Qed.

(** The tired bard (level 4, no dice left) has 2 dice after one long
    rest and all 4 after two. *)
Lemma longRests_example :
  hit_dice_remaining (longRests 1 tired_bard) = Some 2
  /\ hit_dice_remaining (longRests 2 tired_bard) = Some 4
  /\ hit_dice_remaining (longRests 3 tired_bard) = Some 4.
Proof.
  destruct (longRests_restore_hit_dice tired_bard 0)
    as (H3 & H2 & _); [by vm_compute | reflexivity | lia |].
  split; [reflexivity|]. split; [by apply H2 | exact H3].
Defined.

(* ------------------------------------------------------------------- *)
(** ** A long rest on a record without a stored maximum                  *)
(* ------------------------------------------------------------------- *)

(** X11.  When no maximum is stored, a long rest sets the hit points to the
    level times the class hit die, while the "Current HP" input takes the
    level times 8 as the maximum.  The rested hit points are within that
    maximum exactly when the hit die is at most 8, which it is not for a
    Barbarian, Fighter, Paladin or Ranger; and whatever is then typed
    into the input, the hit points end at the level times 8 at most. *)
Theorem longRest_without_max_exceeds_input (c : Character) :
  1 <= level c -> max_hit_points c = None ->
  let rested := next_state c (longRest_onConfirm c) in
  hit_points rested = level c * hitDie c
  /\ maxHit rested = level c * 8
  /\ (hit_points rested <= maxHit rested <-> hitDie c <= 8)
  /\ (class c ∈ ["Barbarian"; "Fighter"; "Paladin"; "Ranger"] ->
      maxHit rested < hit_points rested)
  /\ (forall raw,
        hit_points (next_state rested (currentHp_onChange raw rested))
        <= level c * 8).
Proof.
  intros Hl Hm rested.
  assert (Ehp : hit_points rested = level c * hitDie c).
  { subst rested. unfold longRest_onConfirm. cbv zeta.
    rewrite Hm, or_num_level by lia. reflexivity. }
  assert (Emax : maxHit rested = level c * 8).
  { subst rested. unfold maxHit, longRest_onConfirm. cbv zeta. cbn.
    by rewrite Hm. }
  split; [exact Ehp|]. split; [exact Emax|]. rewrite Ehp, Emax.
  split; [nia|]. split.
  - rewrite !elem_of_cons, elem_of_nil. intros Hclass.
    assert (Hdie : hitDie c = 10 \/ hitDie c = 12).
    { unfold hitDie. destruct Hclass as [->|[->|[->|[->|[]]]]];
        vm_compute; auto. }
    nia.
  - intros raw. unfold currentHp_onChange, handleUpdate. cbv zeta.
    rewrite Emax. destruct raw as [raw|]; cbn; lia.
Qed.

(** A level-4 fighter without a stored maximum rests to 40 hit points,
    above the 32 the input allows. *)
Lemma longRest_without_max_example :
  hit_points
    (next_state fighter_without_max (longRest_onConfirm fighter_without_max))
  = 40
  /\ maxHit
       (next_state fighter_without_max
          (longRest_onConfirm fighter_without_max)) = 32.
Proof.
  destruct (longRest_without_max_exceeds_input fighter_without_max)
    as (Ehp & Emax & _); [by vm_compute | reflexivity |].
  rewrite Ehp, Emax. by vm_compute.
Defined.

(* ------------------------------------------------------------------- *)
(** ** Level up and low constitution                                     *)
(* ------------------------------------------------------------------- *)

(** X12.  The level-up of a bard adds the amount plus the CON modifier as it
    is, without a floor: the average lowers the hit points exactly when
    the constitution is negative, and a roll of [r] lowers them exactly
    when the constitution is below [10 - 2r], which for a roll of 1 means
    7 or less. *)
Theorem levelUp_can_lower_hit_points (c : Character) (r : Z) :
  class c = "Bard" ->
  exists ca cr,
    levelUp_onClick average None c = Some ca
    /\ levelUp_onClick roll (Some r) c = Some cr
    /\ (hit_points ca < hit_points c <-> constitution (ability_scores c) < 0)
    /\ (hit_points cr < hit_points c
        <-> constitution (ability_scores c) < 10 - 2 * r)
    /\ (r = 1 ->
        (hit_points cr < hit_points c
         <-> constitution (ability_scores c) <= 7)).
Proof.
  intros HB. unfold levelUp_onClick, getAbilityModifier. cbv zeta.
  rewrite HB, Math_floor_num_div by lia. cbn.
  do 2 eexists. split; [reflexivity|]. split; [reflexivity|]. cbn.
  pose proof (Z.div_mod (constitution (ability_scores c) - 10) 2 ltac:(lia)).
  pose proof (Z.mod_pos_bound (constitution (ability_scores c) - 10) 2
                ltac:(lia)).
  lia.
Qed.

(** A bard with constitution 7 who rolls 1 goes from 6 to 5 hit points,
    and taking the average raises them to 9. *)
Lemma levelUp_lowering_example :
  exists ca cr,
    levelUp_onClick average None frail_bard = Some ca
    /\ levelUp_onClick roll (Some 1) frail_bard = Some cr
    /\ hit_points cr < hit_points frail_bard
    /\ hit_points ca = 9.
Proof.
  destruct (levelUp_can_lower_hit_points frail_bard 1)
    as (ca & cr & Ea & Er & _ & _ & Hone); [reflexivity|].
  exists ca, cr. split; [exact Ea|]. split; [exact Er|]. split.
  - apply Hone; [reflexivity|]. by vm_compute.
  - vm_compute in Ea. by injection Ea as <-.
Defined.

(* ------------------------------------------------------------------- *)
(** ** What the sheet keeps true                                         *)
(* ------------------------------------------------------------------- *)

Ltac sheet_ok_goal :=
  unfold sheet_ok; cbn;
  repeat match goal with |- _ /\ _ => split end;
  first
    [ assumption
    | lia
    | eexists; split; [first [eassumption | reflexivity] | lia]
    | intros ? [= <-]; lia
    | match goal with
      | H : forall r, hit_dice_remaining ?c = Some r -> _
        |- forall r, hit_dice_remaining ?c = Some r -> _ =>
          let r := fresh "r" in let Hr := fresh "Hr" in
          intros r Hr; specialize (H r Hr); lia
      end ].

Lemma sheet_edit_ok (c c' : Character) :
  sheet_ok c -> sheet_edit c c' -> sheet_ok c'.
Proof.
  intros (Hcon & Hlvl & (m & Hm & Hm1 & Hhp) & Htemp & Hdice & Hs & Hf) Hedit.
  destruct Hedit as
    [raw c c' H | raw c c' H | raw c c' H | kind i c c' Hi H
    | abilityId c c' H | lvl slotIndex c c' H | pending c c' H
    | coin parsed c c' H | c c' H | u c c' info Hu0 Hu1 H
    | rolled c c' H | u c c' Hu0 Hu1 H].
  - unfold currentHp_onChange, handleUpdate, maxHit in H. rewrite Hm in H.
    injection H as <-. destruct raw as [raw|]; sheet_ok_goal.
  - unfold maxHp_onChange in H. cbv zeta in H. injection H as <-.
    destruct raw as [raw|]; cbn;
      match goal with |- context [?a >? ?b] => destruct (Z.gtb_spec a b) end;
      sheet_ok_goal.
  - unfold tempHp_onChange in H. injection H as <-.
    destruct raw as [raw|]; sheet_ok_goal.
  - destruct (SheetProperties.three_booleans_inv _ Hs) as (s0 & s1 & s2 & Es).
    destruct (SheetProperties.three_booleans_inv _ Hf) as (f0 & f1 & f2 & Ef).
    destruct kind; unfold deathSaves in Hi; unfold toggleDeathSave in H;
      unfold deathSaveSuccess_onClick, deathSaveFailure_onClick in H;
      cbv zeta in H; injection H as <-.
    + rewrite Es in Hi |- *. cbn in Hi.
      destruct (SheetProperties.toggle_three_booleans [Some s0; Some s1; Some s2] i)
        as (_ & _ & Hthree & _); [lia | eauto |].
      sheet_ok_goal.
    + rewrite Ef in Hi |- *. cbn in Hi.
      destruct (SheetProperties.toggle_three_booleans [Some f0; Some f1; Some f2] i)
        as (_ & _ & Hthree & _); [lia | eauto |].
      sheet_ok_goal.
  - unfold toggleUsedAbility in H. injection H as <-. sheet_ok_goal.
  - unfold toggleSpellSlot in H. cbv zeta in H.
    destruct (match _ !! _ with Some used => Some used | None => _ end)
      as [arr|]; [cbn in H | discriminate].
    destruct (arr_pad _ _ arr) as [arr'|]; [cbn in H | discriminate].
    injection H as <-. sheet_ok_goal.
  - destruct pending as [[[] index]|]; [| |discriminate];
      injection H as <-; sheet_ok_goal.
  - unfold currency_onChange in H. injection H as <-. sheet_ok_goal.
  - unfold longRest_onConfirm in H. cbv zeta in H.
    rewrite Hm, or_num_level, Math_floor_num_div in H by lia.
    injection H as <-.
    pose proof (Z.div_pos (level c) 2).
    destruct (hit_dice_remaining c) as [r|] eqn:Er;
      [specialize (Hdice r eq_refl)|]; sheet_ok_goal.
  - unfold spendHitDie_onClick in H. cbv zeta in H.
    destruct (Z.leb_spec (nullish (hit_dice_remaining c) (or_num (level c) 1)) 0);
      [discriminate|].
    rewrite Hm, or_num_level, or_num_same in * by lia.
    injection H as <- _.
    destruct (hit_dice_remaining c) as [r|] eqn:Er;
      [specialize (Hdice r eq_refl)|]; cbn in *; sheet_ok_goal.
  - unfold levelUp_onClick, getAbilityModifier in H. cbv zeta in H.
    rewrite Math_floor_num_div in H by lia.
    pose proof (Z.div_mod (constitution (ability_scores c) - 10) 2 ltac:(lia)).
    pose proof (Z.mod_pos_bound (constitution (ability_scores c) - 10) 2
                  ltac:(lia)).
    destruct (String.eqb (class c) "Bard"); cbn in H; injection H as <-;
      rewrite ?Hm; cbn; [unfold or_num; destruct (Z.eqb_spec m 0); [lia|]|];
      sheet_ok_goal.
  - unfold levelUp_onClick, getAbilityModifier, rollD8_onClick in H.
    cbv zeta in H. rewrite Math_floor_num_div in H by lia.
    pose proof (SheetProperties.rollDie_range u 8 Hu0 Hu1 ltac:(lia)).
    pose proof (Z.div_mod (constitution (ability_scores c) - 10) 2 ltac:(lia)).
    pose proof (Z.mod_pos_bound (constitution (ability_scores c) - 10) 2
                  ltac:(lia)).
    destruct (String.eqb (class c) "Bard"); cbn in H; injection H as <-;
      rewrite ?Hm; cbn; [unfold or_num; destruct (Z.eqb_spec m 0); [lia|]|];
      sheet_ok_goal.
Qed.

Lemma tired_bard_ok : sheet_ok tired_bard.
Proof.
  unfold sheet_ok. cbn.
  split; [lia|]. split; [lia|]. split; [exists 20; repeat split; lia|].
  split; [discriminate|]. split; [intros r [= <-]; lia | done].
Qed.

(** X13.  Through any sequence of uses of the sheet (the HP, Max HP and
    Temporary HP inputs, the death-save buttons, the used-ability and
    spell-slot toggles, removal of an item or spell, the coin inputs, a
    long rest, a hit die spent, a level-up), a character with
    constitution 8 or more keeps: level at least 1, a stored maximum of
    at least 1, hit points between 0 and that maximum, temporary hit
    points not negative, stored hit dice between 0 and the level, and
    death-save arrays of three booleans. *)
Theorem sheet_ok_preserved (c c' : Character) :
  sheet_ok c -> rtc sheet_edit c c' -> sheet_ok c'.
Proof.
  intros Hok Hrun. induction Hrun as [c|c c1 c' Hstep _ IH]; [exact Hok|].
  apply IH. by apply (sheet_edit_ok c).
Qed.

(** The tired bard rests, spends a hit die and levels up on a roll. *)
Lemma sheet_ok_example :
  exists c1 c2 info c3,
    longRest_onConfirm tired_bard = Some c1
    /\ spendHitDie_onClick (1 # 2) c1 = Some (c2, info)
    /\ levelUp_onClick roll (rollD8_onClick 0) c2 = Some c3
    /\ sheet_ok c3.
Proof.
  eexists _, _, _, _. split; [reflexivity|]. split; [reflexivity|].
  split; [reflexivity|].
  apply (sheet_ok_preserved tired_bard); [exact tired_bard_ok|].
  eapply rtc_l; [by apply edit_long_rest|].
  eapply rtc_l; [by eapply (edit_spend_hit_die (1 # 2))|].
  eapply rtc_l; [by eapply (edit_level_up_roll 0)|].
  apply rtc_refl.
Defined.

(* ------------------------------------------------------------------- *)
(** ** Spell slots: failure, and use after a long rest                   *)
(* ------------------------------------------------------------------- *)

(** X14.  [toggleSpellSlot] fails to complete, leaving the character as it is,
    in exactly two cases: the slot count resolved for the level is above
    the largest array length; or it is negative and the level has no
    used-array yet, so that [Array(maxSlots)] throws. *)
Theorem toggleSpellSlot_throws (lvl slotIndex : Z) (c : Character) :
  toggleSpellSlot lvl slotIndex c = None
  <-> MAX_ARRAY_LENGTH < maxSlots c lvl
      \/ (nullish (spell_slots_used c) ∅ !! (pretty lvl : string) = None
          /\ maxSlots c lvl < 0).
Proof.
  unfold toggleSpellSlot. cbv zeta.
  destruct (nullish (spell_slots_used c) ∅ !! (pretty lvl : string))
    as [used|] eqn:E.
  - cbn [mbind option_bind]. unfold arr_pad.
    destruct (Z.leb_spec (maxSlots c lvl) MAX_ARRAY_LENGTH); cbn.
    + split; [discriminate|]. intros [?|[? _]]; [lia | discriminate].
    + split; [intros _; left; lia | done].
  - unfold Array_fill, arr_pad.
    destruct (Z.leb_spec 0 (maxSlots c lvl)),
      (Z.leb_spec (maxSlots c lvl) MAX_ARRAY_LENGTH); cbn.
    + destruct (Z.leb_spec (maxSlots c lvl) MAX_ARRAY_LENGTH); [|lia]. cbn.
      split; [discriminate|]. intros [?|[_ ?]]; lia.
    + split; [intros _; left; lia | done].
    + split; [intros _; right; split; [done | lia] | done].
    + split; [intros _; left; lia | done].
Qed.

Lemma arr_get_replicate (n : nat) (b : bool) (i : Z) :
  0 <= i < Z.of_nat n -> Z.of_nat n <= MAX_ARRAY_LENGTH ->
  arr_get (replicate n (Some b)) i = Some b.
Proof.
  intros Hi Hn. apply arr_get_in_range; [lia | | by rewrite length_replicate].
  apply lookup_replicate_2. lia.
Qed.

(** X15.  After a long rest, toggling a slot inside the level's slot count
    records that level alone, with that one slot used and the others
    unused; toggling the same slot again records all of them as
    unused. *)
Theorem toggleSpellSlot_after_longRest (lvl slotIndex : Z) (c : Character) :
  0 <= slotIndex < maxSlots c lvl ->
  maxSlots c lvl <= MAX_ARRAY_LENGTH ->
  let rested := next_state c (longRest_onConfirm c) in
  let unused := replicate (Z.to_nat (maxSlots c lvl)) (Some false) in
  exists c1 c2,
    toggleSpellSlot lvl slotIndex rested = Some c1
    /\ spell_slots_used c1
       = Some {[ pretty lvl := <[Z.to_nat slotIndex := Some true]> unused ]}
    /\ toggleSpellSlot lvl slotIndex c1 = Some c2
    /\ spell_slots_used c2 = Some {[ pretty lvl := unused ]}.
Proof.
  intros Hi Hmax rested unused.
  set (n := maxSlots c lvl) in *.
  assert (Hlen : length unused = Z.to_nat n) by apply length_replicate.
  assert (Hn1 : maxSlots rested lvl = n) by reflexivity.
  assert (Hfill : Array_fill n false = Some unused).
  { unfold Array_fill.
    by destruct (Z.leb_spec 0 n), (Z.leb_spec n MAX_ARRAY_LENGTH); try lia. }
  assert (Hpad : forall arr : barray,
             length arr = Z.to_nat n -> arr_pad n false arr = Some arr).
  { intros arr Harr. rewrite arr_pad_spec by assumption.
    replace (Z.to_nat (n - Z.of_nat (length arr))) with O by lia.
    by rewrite app_nil_r. }
  assert (E1 : toggleSpellSlot lvl slotIndex rested
               = Some (spread rested
                         [set_spell_slots_used
                            {[ pretty lvl
                               := <[Z.to_nat slotIndex := Some true]> unused ]}])).
  { unfold toggleSpellSlot. cbv zeta. rewrite Hn1.
    change (nullish (spell_slots_used rested) ∅) with (∅ : gmap string barray).
    rewrite lookup_empty, Hfill. cbn [mbind option_bind].
    rewrite (Hpad unused Hlen). cbn [mbind option_bind].
    rewrite arr_toggle_in_range by lia.
    unfold unused at 1. rewrite arr_get_replicate by lia.
    by rewrite insert_empty. }
  eexists _, _. split; [exact E1|]. split; [reflexivity|].
  set (c1 := spread rested _).
  assert (Hn2 : maxSlots c1 lvl = n) by reflexivity.
  assert (E2 : toggleSpellSlot lvl slotIndex c1
               = Some (spread c1
                         [set_spell_slots_used {[ pretty lvl := unused ]}])).
  { unfold toggleSpellSlot. cbv zeta. rewrite Hn2.
    change (nullish (spell_slots_used c1) ∅)
      with ({[ pretty lvl := <[Z.to_nat slotIndex := Some true]> unused ]}
            : gmap string barray).
    rewrite lookup_singleton_eq. cbn [mbind option_bind].
    rewrite Hpad by (by rewrite length_insert). cbn [mbind option_bind].
    rewrite arr_toggle_in_range by (rewrite ?length_insert; lia).
    rewrite (arr_get_in_range _ slotIndex (Some true));
      [| lia | apply list_lookup_insert_eq; lia | rewrite length_insert; lia].
    rewrite list_insert_insert_eq, insert_singleton_eq. cbn [truthy negb].
    rewrite list_insert_id; [done|]. apply lookup_replicate_2. lia. }
  split; [exact E2 | reflexivity].
Qed.

(** The tired bard after a long rest: using the second first-level slot
    and freeing it again. *)
Lemma toggleSpellSlot_after_longRest_example :
  exists c1 c2,
    toggleSpellSlot 1 1 (next_state tired_bard (longRest_onConfirm tired_bard))
    = Some c1
    /\ spell_slots_used c1 = Some {[ "1" := [Some false; Some true] ]}
    /\ toggleSpellSlot 1 1 c1 = Some c2
    /\ spell_slots_used c2 = Some {[ "1" := [Some false; Some false] ]}.
Proof.
  destruct (toggleSpellSlot_after_longRest 1 1 tired_bard)
    as (c1 & c2 & E1 & H1 & E2 & H2); [by vm_compute | by vm_compute |].
  exists c1, c2. split; [exact E1|]. split; [exact H1|].
  split; [exact E2 | exact H2].
Defined.

End SheetExtras.

(* ===================================================================== *)
(** * More about the creation form (src/pages/CharactersPage.tsx)         *)
(* ===================================================================== *)

Module FormExtras.
Import Js CharacterTypes CharactersPage CreationForm JsFacts Samples
  MoreSamples.

(* ------------------------------------------------------------------- *)
(** ** Rolling                                                           *)
(* ------------------------------------------------------------------- *)

Lemma d6_range (u : Q) : (0 <= u)%Q -> (u < 1)%Q -> 1 <= d6 u <= 6.
Proof.
  intros H0 H1. unfold d6.
  pose proof (Math_floor_fraction u 6 H0 H1 ltac:(lia)). lia.
Qed.

(** X16.  Four dice less the lowest: a rolled stat lies between 3 and 18, is
    at least three times the lowest die and at most three times the
    highest. *)
Theorem rollStat_range (u1 u2 u3 u4 : Q) :
  (0 <= u1)%Q -> (u1 < 1)%Q -> (0 <= u2)%Q -> (u2 < 1)%Q ->
  (0 <= u3)%Q -> (u3 < 1)%Q -> (0 <= u4)%Q -> (u4 < 1)%Q ->
  let lowest := Z.min (Z.min (d6 u1) (d6 u2)) (Z.min (d6 u3) (d6 u4)) in
  let highest := Z.max (Z.max (d6 u1) (d6 u2)) (Z.max (d6 u3) (d6 u4)) in
  3 <= rollStat u1 u2 u3 u4 <= 18
  /\ rollStat u1 u2 u3 u4 = d6 u1 + d6 u2 + d6 u3 + d6 u4 - lowest
  /\ 3 * lowest <= rollStat u1 u2 u3 u4 <= 3 * highest.
Proof.
  intros A0 A1 B0 B1 C0 C1 D0 D1.
  pose proof (d6_range u1 A0 A1). pose proof (d6_range u2 B0 B1).
  pose proof (d6_range u3 C0 C1). pose proof (d6_range u4 D0 D1).
  unfold rollStat. cbn [head tail nullish fold_left]. lia.
Qed.

(** Dice 1, 4, 6 and 3 make 13. *)
Lemma rollStat_example : rollStat 0 (1 # 2) (7 # 8) (1 # 3) = 13.
Proof.
  destruct (rollStat_range 0 (1 # 2) (7 # 8) (1 # 3)) as (_ & E & _);
    [done..|].
  rewrite E. by vm_compute.
Defined.

Lemma rollStat_bounds (random : nat -> Q) (k : nat) :
  (forall k, (0 <= random k)%Q /\ (random k < 1)%Q) ->
  3 <= rollStat (random (4 * k)%nat) (random (4 * k + 1)%nat)
         (random (4 * k + 2)%nat) (random (4 * k + 3)%nat) <= 18.
Proof.
  intros Hr.
  pose proof (d6_range _ (proj1 (Hr (4 * k)%nat)) (proj2 (Hr (4 * k)%nat))).
  pose proof (d6_range _ (proj1 (Hr (4 * k + 1)%nat))
                (proj2 (Hr (4 * k + 1)%nat))).
  pose proof (d6_range _ (proj1 (Hr (4 * k + 2)%nat))
                (proj2 (Hr (4 * k + 2)%nat))).
  pose proof (d6_range _ (proj1 (Hr (4 * k + 3)%nat))
                (proj2 (Hr (4 * k + 3)%nat))).
  unfold rollStat. cbn [head tail nullish fold_left]. lia.
Qed.

Lemma rollAllStats_pool (random : nat -> Q) (st : FormState) :
  (forall k, (0 <= random k)%Q /\ (random k < 1)%Q) ->
  exists p0 p1 p2 p3 p4 p5,
    rolledPool (rollAllStats random st) = [p0; p1; p2; p3; p4; p5]
    /\ Forall (fun v => 3 <= v <= 18) [p0; p1; p2; p3; p4; p5].
Proof.
  intros Hr. eexists _, _, _, _, _, _. split; [reflexivity|].
  repeat apply Forall_cons_2; [..|apply Forall_nil_2].
  - apply (rollStat_bounds random 0 Hr).
  - apply (rollStat_bounds random 1 Hr).
  - apply (rollStat_bounds random 2 Hr).
  - apply (rollStat_bounds random 3 Hr).
  - apply (rollStat_bounds random 4 Hr).
  - apply (rollStat_bounds random 5 Hr).
Qed.

(* ------------------------------------------------------------------- *)
(** ** Assigning the rolled pool                                         *)
(* ------------------------------------------------------------------- *)

Lemma tally_from (l : list Z) (m : gmap Z Z) (v : Z) :
  fold_left (fun counts v => <[v := nullish (counts !! v) 0 + 1]> counts) l m
    !! v
  = match count_occ Z.eq_dec l v with
    | O => m !! v
    | S n => Some (nullish (m !! v) 0 + Z.of_nat (S n))
    end.
Proof.
  revert m. induction l as [|x l IH]; intros m; [done|].
  cbn [fold_left]. rewrite IH. destruct (decide (x = v)) as [->|Hne].
  - rewrite count_occ_cons_eq by done. rewrite lookup_insert_eq. cbn [nullish].
    destruct (count_occ Z.eq_dec l v); f_equal; lia.
  - rewrite count_occ_cons_neq by done. by rewrite lookup_insert_ne.
Qed.

(** The counts object holds, for each value of the list, how often it
    occurs, and nothing for any other value. *)
Lemma tally_lookup (l : list Z) (v : Z) :
  tally l !! v
  = match count_occ Z.eq_dec l v with
    | O => None
    | S n => Some (Z.of_nat (S n))
    end.
Proof.
  unfold tally. rewrite tally_from, lookup_empty.
  by destruct (count_occ Z.eq_dec l v).
Qed.

Lemma rolledExceedsPool_spec (st : FormState) :
  rolledExceedsPool st = false
  <-> forall v, (count_occ Z.eq_dec (abilityValues (abilities st)) v
                 <= count_occ Z.eq_dec (rolledPool st) v)%nat.
Proof.
  unfold rolledExceedsPool. cbv zeta.
  rewrite <- not_true_iff_false, existsb_exists. split.
  - intros Hnone v.
    destruct (count_occ Z.eq_dec (abilityValues (abilities st)) v) as [|n] eqn:E;
      [lia|].
    destruct (Nat.le_gt_cases (S n) (count_occ Z.eq_dec (rolledPool st) v))
      as [|Hlt]; [done|].
    exfalso. apply Hnone. exists (v, Z.of_nat (S n)). split.
    + apply list_elem_of_In, elem_of_map_to_list. by rewrite tally_lookup, E.
    + rewrite tally_lookup. apply Z.ltb_lt.
      destruct (count_occ Z.eq_dec (rolledPool st) v); cbn [nullish]; lia.
  - intros Hle ([v count] & Hin & Hlt).
    apply list_elem_of_In, elem_of_map_to_list in Hin.
    rewrite tally_lookup in Hin, Hlt. specialize (Hle v).
    apply Z.ltb_lt in Hlt.
    destruct (count_occ Z.eq_dec (abilityValues (abilities st)) v); [done|].
    injection Hin as <-.
    destruct (count_occ Z.eq_dec (rolledPool st) v); cbn [nullish] in Hlt; lia.
Qed.

Lemma rolledAssignedAll_spec (st : FormState) :
  rolledAssignedAll st = true
  <-> Forall (fun v => 0 < v) (abilityValues (abilities st)).
Proof.
  unfold rolledAssignedAll. destruct (abilities st) as [a b c d e f].
  assert (E : forallb
                (fun k => nullish (abilityAt (mkAbilityScores a b c d e f) k) 0
                          >? 0) abilityKeys
              = forallb (fun v => v >? 0) [a; b; c; d; e; f])
    by (vm_compute; reflexivity).
  rewrite E, forallb_forall, Forall_forall.
  split; intros H v Hv.
  - apply list_elem_of_In, H in Hv. lia.
  - apply list_elem_of_In, H in Hv. lia.
Qed.

(** In rolled mode the validation passes exactly when every ability is
    positive and no value is assigned more often than the pool holds
    it. *)
Lemma rolled_validation_counts (st : FormState) :
  abilityMethod st = rolled ->
  (validateAbilities st).1 = true
  <-> Forall (fun v => 0 < v) (abilityValues (abilities st))
      /\ forall v, (count_occ Z.eq_dec (abilityValues (abilities st)) v
                    <= count_occ Z.eq_dec (rolledPool st) v)%nat.
Proof.
  intros Hm. unfold validateAbilities. rewrite Hm.
  rewrite <- rolledAssignedAll_spec, <- rolledExceedsPool_spec.
  destruct (rolledAssignedAll st), (rolledExceedsPool st); cbn;
    intuition congruence.
Qed.

Lemma occurrences_submseteq (l1 l2 : list Z) :
  (forall v, (count_occ Z.eq_dec l1 v <= count_occ Z.eq_dec l2 v)%nat) -> l1 ⊆+ l2.
Proof.
  revert l2. induction l1 as [|x l1 IH]; intros l2 Hle.
  - apply submseteq_nil_l.
  - assert (Hin : x ∈ l2).
    { apply list_elem_of_In, (count_occ_In Z.eq_dec).
      specialize (Hle x). rewrite count_occ_cons_eq in Hle by done. lia. }
    apply elem_of_Permutation in Hin as [l2' Hperm].
    rewrite Hperm. apply submseteq_skip, IH. intros v.
    specialize (Hle v).
    rewrite (Permutation_count_occ Z.eq_dec l2 (x :: l2')) in Hperm.
    rewrite Hperm in Hle.
    destruct (decide (x = v)) as [->|Hne].
    + rewrite !count_occ_cons_eq in Hle by done. lia.
    + by rewrite !count_occ_cons_neq in Hle by done.
Qed.

(** X17.  With a pool of six positive values, as a roll produces, the
    validation in rolled mode passes exactly when the six abilities are
    the six pool values in some order. *)
Theorem rolled_validation_permutation (st : FormState) :
  abilityMethod st = rolled ->
  length (rolledPool st) = 6%nat ->
  Forall (fun v => 0 < v) (rolledPool st) ->
  (validateAbilities st).1 = true
  <-> abilityValues (abilities st) ≡ₚ rolledPool st.
Proof.
  intros Hm Hlen Hpos. rewrite rolled_validation_counts by done. split.
  - intros [_ Hle]. apply submseteq_length_Permutation.
    + by apply occurrences_submseteq.
    + by rewrite Hlen.
  - intros Hperm. split.
    + by rewrite Hperm.
    + intros v.
      rewrite (Permutation_count_occ Z.eq_dec) in Hperm. by rewrite Hperm.
Qed.

Lemma cycling_source_fraction (k : nat) :
  (0 <= cycling_source k)%Q /\ (cycling_source k < 1)%Q.
Proof.
  unfold cycling_source, Qle, Qlt. cbn.
  pose proof (Nat.mod_upper_bound k 6 ltac:(lia)). lia.
Qed.

Lemma validateAbilities_accepts (st : FormState) :
  (validateAbilities st).1 = true -> validateAbilities st = accept st.
Proof.
  unfold validateAbilities.
  destruct (abilityMethod st), (standardAssignedAll st),
    (rolledAssignedAll st), (rolledExceedsPool st),
    (pointBuyTotal (pointBuyScores st) >? 27); cbn; congruence.
Qed.

(** X18.  The "Rolled" method button leaves a pool of six values between 3
    and 18 and clears the six abilities; asked to validate that state,
    the form stays on the Abilities stage with the request to assign
    each value. *)
Theorem rolledMethod_onClick_spec (random : nat -> Q) (st : FormState) :
  (forall k, (0 <= random k)%Q /\ (random k < 1)%Q) ->
  let st' := rolledMethod_onClick random st in
  abilityMethod st' = rolled
  /\ length (rolledPool st') = 6%nat
  /\ Forall (fun v => 3 <= v <= 18) (rolledPool st')
  /\ abilityValues (abilities st') = [0; 0; 0; 0; 0; 0]
  /\ validateAbilities st'
     = reject "Please assign each rolled value to an ability before continuing"
         st'.
Proof.
  intros Hr st'.
  destruct (rollAllStats_pool random st Hr)
    as (p0 & p1 & p2 & p3 & p4 & p5 & Epool & Hrange).
  split; [reflexivity|]. split; [reflexivity|].
  split.
  { change (rolledPool st') with (rolledPool (rollAllStats random st)).
    by rewrite Epool. }
  split; [reflexivity|].
  unfold validateAbilities. change (abilityMethod st') with rolled.
  destruct (rolledAssignedAll st') eqn:E; [|reflexivity].
  apply rolledAssignedAll_spec in E. inversion E. lia.
Qed.

(** With the cycling source the pool is 9, 13, 15, 9, 13, 15. *)
Lemma rolledMethod_onClick_example :
  rolledPool (rolledMethod_onClick cycling_source (standard_form ∅))
  = [9; 13; 15; 9; 13; 15]
  /\ (validateAbilities
        (rolledMethod_onClick cycling_source (standard_form ∅))).1 = false.
Proof.
  destruct (rolledMethod_onClick_spec cycling_source (standard_form ∅))
    as (_ & _ & _ & _ & Hv); [exact cycling_source_fraction|].
  split; [by vm_compute | by rewrite Hv].
Defined.

(** X19.  A roll followed by Auto-Assign gives each ability the pool value at
    its position, and that assignment passes the validation. *)
Theorem autoAssign_after_roll (random : nat -> Q) (st : FormState) :
  (forall k, (0 <= random k)%Q /\ (random k < 1)%Q) ->
  let st' := autoAssign_onClick (rolledMethod_onClick random st) in
  rolledPool st' = rolledPool (rolledMethod_onClick random st)
  /\ abilityValues (abilities st') = rolledPool st'
  /\ validateAbilities st' = accept st'.
Proof.
  intros Hr st'.
  destruct (rollAllStats_pool random st Hr)
    as (p0 & p1 & p2 & p3 & p4 & p5 & Epool & Hrange).
  assert (Evals : abilityValues (abilities st') = rolledPool st')
    by reflexivity.
  split; [reflexivity|]. split; [exact Evals|].
  apply validateAbilities_accepts, rolled_validation_counts; [reflexivity|].
  rewrite Evals. split; [|done].
  change (rolledPool st') with (rolledPool (rollAllStats random st)).
  rewrite Epool. eapply Forall_impl; [exact Hrange|]. cbn. lia.
Qed.

(** With the cycling source the abilities become 9, 13, 15, 9, 13,
    15. *)
Lemma autoAssign_after_roll_example :
  abilityValues
    (abilities
       (autoAssign_onClick
          (rolledMethod_onClick cycling_source (standard_form ∅))))
  = [9; 13; 15; 9; 13; 15]
  /\ (validateAbilities
        (autoAssign_onClick
           (rolledMethod_onClick cycling_source (standard_form ∅)))).1
     = true.
Proof.
  destruct (autoAssign_after_roll cycling_source (standard_form ∅))
    as (_ & Hvals & Hv); [exact cycling_source_fraction|].
  split; [by vm_compute | by rewrite Hv].
Defined.

(** X20.  Auto-Assign takes from the start of the pool whatever has been
    assigned by hand: when only the first ability is assigned, and holds
    the pool's first value, which the pool holds once, Auto-Assign gives
    that value to the second ability as well, and the validation refuses
    the result. *)
Theorem autoAssign_can_overassign (st : FormState) (p0 : Z) (rest : list Z) :
  abilityMethod st = rolled ->
  rolledPool st = p0 :: rest -> p0 ∉ rest -> p0 ≠ 0 ->
  abilityValues (abilities st) = [p0; 0; 0; 0; 0; 0] ->
  let st' := autoAssign_onClick st in
  strength (abilities st') = p0
  /\ dexterity (abilities st') = p0
  /\ (validateAbilities st').1 = false.
Proof.
  intros Hm Hpool Hout Hp0 Hvals st'.
  destruct st as [tab method a sa pb pool err]. cbn in Hm, Hpool, Hvals.
  destruct a as [str dex con int wis cha]. cbn in Hvals.
  injection Hvals as -> -> -> -> -> ->. subst pool method.
  subst st'. unfold autoAssign_onClick. cbn [abilities rolledPool strength
    dexterity constitution intelligence wisdom charisma].
  unfold autoAssign_turn.
  destruct (Z.eqb_spec p0 0); [done|]. cbn [Z.eqb head tail nullish].
  split; [done|]. split; [done|].
  match goal with |- (validateAbilities ?s).1 = false =>
    destruct (validateAbilities s).1 eqn:E; [|done] end.
  exfalso. apply rolled_validation_counts in E as [_ Hle]; [|done].
  specialize (Hle p0). unfold abilityValues in Hle.
  cbn [abilities rolledPool strength dexterity constitution intelligence
    wisdom charisma] in Hle.
  rewrite 2!count_occ_cons_eq in Hle by done.
  rewrite (count_occ_cons_eq Z.eq_dec rest (eq_refl p0)) in Hle.
  rewrite (proj1 (count_occ_not_In Z.eq_dec rest p0)) in Hle; [lia|].
  by rewrite <- list_elem_of_In.
Qed.

(** Strength set to 15 by hand from the pool 15, 12, 11, 10, 9, 8:
    Auto-Assign gives dexterity 15 too. *)
Lemma autoAssign_overassign_example :
  abilityValues
    (abilities
       (autoAssign_onClick
          (rolled_form [15; 12; 11; 10; 9; 8]
             (mkAbilityScores 15 0 0 0 0 0))))
  = [15; 15; 12; 11; 10; 9]
  /\ (validateAbilities
        (autoAssign_onClick
           (rolled_form [15; 12; 11; 10; 9; 8]
              (mkAbilityScores 15 0 0 0 0 0)))).1 = false.
Proof.
  destruct (autoAssign_can_overassign
              (rolled_form [15; 12; 11; 10; 9; 8]
                 (mkAbilityScores 15 0 0 0 0 0)) 15 [12; 11; 10; 9; 8])
    as (_ & _ & Hv); [done | done | | done | done |].
  - apply (bool_decide_unpack _). by vm_compute.
  - split; [reflexivity | exact Hv].
Defined.

(** The pool 9, 13, 15, 9, 13, 15 assigned in another order passes. *)
Lemma rolled_validation_example :
  (validateAbilities
     (rolled_form [9; 13; 15; 9; 13; 15]
        (mkAbilityScores 15 15 13 13 9 9))).1 = true.
Proof.
  apply rolled_validation_permutation; [done | done | |].
  - repeat (apply Forall_cons_2; [done|]). apply Forall_nil_2.
  - apply (bool_decide_unpack _). by vm_compute.
Defined.

(* ------------------------------------------------------------------- *)
(** ** The point-buy editor                                              *)
(* ------------------------------------------------------------------- *)

Lemma insert_six (a b c d e f x : Z) :
  let six (a b c d e f : Z) : gmap string Z :=
    list_to_map (zip abilityKeys [a; b; c; d; e; f]) in
  <["strength" := x]> (six a b c d e f) = six x b c d e f
  /\ <["dexterity" := x]> (six a b c d e f) = six a x c d e f
  /\ <["constitution" := x]> (six a b c d e f) = six a b x d e f
  /\ <["intelligence" := x]> (six a b c d e f) = six a b c x e f
  /\ <["wisdom" := x]> (six a b c d e f) = six a b c d x f
  /\ <["charisma" := x]> (six a b c d e f) = six a b c d e x.
Proof. repeat split; vm_compute; reflexivity. Qed.

Lemma lookup_six (a b c d e f : Z) (k : string) (v : Z) :
  (list_to_map (zip abilityKeys [a; b; c; d; e; f]) : gmap string Z) !! k
  = Some v ->
  (k = "strength" /\ v = a) \/ (k = "dexterity" /\ v = b)
  \/ (k = "constitution" /\ v = c) \/ (k = "intelligence" /\ v = d)
  \/ (k = "wisdom" /\ v = e) \/ (k = "charisma" /\ v = f).
Proof.
  intros H. apply elem_of_list_to_map_2 in H. cbn in H.
  rewrite !elem_of_cons, elem_of_nil in H.
  repeat destruct H as [[= -> ->]|H]; tauto.
Qed.

Lemma pointBuy_press_six (a b c d e f : Z) (scores' : gmap string Z) :
  Forall (fun v => 8 <= v <= 15) [a; b; c; d; e; f] ->
  pointBuy_press (list_to_map (zip abilityKeys [a; b; c; d; e; f])) scores' ->
  exists a' b' c' d' e' f',
    scores' = list_to_map (zip abilityKeys [a'; b'; c'; d'; e'; f'])
    /\ Forall (fun v => 8 <= v <= 15) [a'; b'; c'; d'; e'; f'].
Proof.
  intros Hrange Hpress.
  apply Forall_cons in Hrange as [Ha Hrange].
  apply Forall_cons in Hrange as [Hb Hrange].
  apply Forall_cons in Hrange as [Hc Hrange].
  apply Forall_cons in Hrange as [Hd Hrange].
  apply Forall_cons in Hrange as [He Hrange].
  apply Forall_cons in Hrange as [Hf _].
  assert (Hchange : exists ability delta,
             change ability delta
               (list_to_map (zip abilityKeys [a; b; c; d; e; f]))
             = Some scores').
  { inversion Hpress; subst; eauto. }
  destruct Hchange as (ability & delta & Hchange).
  unfold change in Hchange.
  destruct (_ !! ability) as [score|] eqn:E; [|discriminate].
  injection Hchange as <-.
  destruct (insert_six a b c d e f (Z.min 15 (Z.max 8 (score + delta))))
    as (I1 & I2 & I3 & I4 & I5 & I6).
  cbv zeta in I1, I2, I3, I4, I5, I6.
  apply lookup_six in E
    as [[-> ->]|[[-> ->]|[[-> ->]|[[-> ->]|[[-> ->]|[-> ->]]]]]].
  - eexists _, _, _, _, _, _. split; [exact I1|].
    repeat (apply Forall_cons_2; [lia|]). apply Forall_nil_2.
  - eexists _, _, _, _, _, _. split; [exact I2|].
    repeat (apply Forall_cons_2; [lia|]). apply Forall_nil_2.
  - eexists _, _, _, _, _, _. split; [exact I3|].
    repeat (apply Forall_cons_2; [lia|]). apply Forall_nil_2.
  - eexists _, _, _, _, _, _. split; [exact I4|].
    repeat (apply Forall_cons_2; [lia|]). apply Forall_nil_2.
  - eexists _, _, _, _, _, _. split; [exact I5|].
    repeat (apply Forall_cons_2; [lia|]). apply Forall_nil_2.
  - eexists _, _, _, _, _, _. split; [exact I6|].
    repeat (apply Forall_cons_2; [lia|]). apply Forall_nil_2.
Qed.

(** Pressing [+] on one ability [n] times raises it by [n], as long as
    that stays within 15. *)
Lemma pointBuy_press_plus (n : nat) (k : string) (v : Z)
    (scores : gmap string Z) :
  scores !! k = Some v -> 8 <= v -> v + Z.of_nat n <= 15 ->
  rtc pointBuy_press scores (<[k := v + Z.of_nat n]> scores).
Proof.
  intros Hk H8. induction n as [|n IH]; intros H15.
  - replace (v + Z.of_nat 0) with v by lia. by rewrite insert_id.
  - eapply rtc_r; [apply IH; lia|].
    apply (press_plus _ k). unfold change. rewrite lookup_insert_eq.
    rewrite insert_insert_eq. do 2 f_equal. lia.
Qed.

Lemma pointBuyCostFor_range (s : Z) :
  8 <= s <= 15 -> 0 <= pointBuyCostFor s <= 9.
Proof.
  intros Hs.
  assert (Hcases : s = 8 \/ s = 9 \/ s = 10 \/ s = 11 \/ s = 12 \/ s = 13
                   \/ s = 14 \/ s = 15) by lia.
  repeat (destruct Hcases as [->|Hcases]; [by vm_compute|]).
  subst. by vm_compute.
Qed.

(** X21.  The score sets the editor can reach from the initial six 8s by its
    [-] and [+] buttons are exactly those that give each of the six
    abilities a score between 8 and 15.  Their total cost lies between
    0 and 54, and six 15s, which cost 54, can be reached: the editor
    itself does not keep to the budget of 27. *)
Theorem pointBuy_editor_states (scores : gmap string Z) :
  (rtc pointBuy_press initialPointBuyScores scores
   <-> exists a b c d e f,
         scores = list_to_map (zip abilityKeys [a; b; c; d; e; f])
         /\ Forall (fun v => 8 <= v <= 15) [a; b; c; d; e; f])
  /\ (rtc pointBuy_press initialPointBuyScores scores ->
      0 <= pointBuyTotal scores <= 54)
  /\ rtc pointBuy_press initialPointBuyScores all_fifteen
  /\ pointBuyTotal all_fifteen = 54.
Proof.
  assert (Hinv : forall s,
             rtc pointBuy_press initialPointBuyScores s ->
             exists a b c d e f,
               s = list_to_map (zip abilityKeys [a; b; c; d; e; f])
               /\ Forall (fun v => 8 <= v <= 15) [a; b; c; d; e; f]).
  { apply rtc_ind_r.
    - exists 8, 8, 8, 8, 8, 8. split; [reflexivity|].
      repeat (apply Forall_cons_2; [lia|]). apply Forall_nil_2.
    - intros s s' _ Hpress (a & b & c & d & e & f & -> & Hrange).
      by apply (pointBuy_press_six a b c d e f). }
  assert (Hreach : forall a b c d e f,
             Forall (fun v => 8 <= v <= 15) [a; b; c; d; e; f] ->
             rtc pointBuy_press initialPointBuyScores
               (list_to_map (zip abilityKeys [a; b; c; d; e; f]))).
  { intros a b c d e f Hrange.
    apply Forall_cons in Hrange as [Ha Hrange].
    apply Forall_cons in Hrange as [Hb Hrange].
    apply Forall_cons in Hrange as [Hc Hrange].
    apply Forall_cons in Hrange as [Hd Hrange].
    apply Forall_cons in Hrange as [He Hrange].
    apply Forall_cons in Hrange as [Hf _].
    pose (six := fun a b c d e f : Z =>
                   (list_to_map (zip abilityKeys [a; b; c; d; e; f])
                    : gmap string Z)).
    change initialPointBuyScores with (six 8 8 8 8 8 8).
    change (list_to_map (zip abilityKeys [a; b; c; d; e; f]))
      with (six a b c d e f).
    assert (Hstep : forall (k : string) (v x : Z) s s',
               s !! k = Some v -> 8 <= v -> v <= x <= 15 ->
               <[k := x]> s = s' -> rtc pointBuy_press s s').
    { intros k v x s s' Hk H8 Hx <-.
      replace x with (v + Z.of_nat (Z.to_nat (x - v))) by lia.
      apply pointBuy_press_plus; [done | lia | lia]. }
    etrans; [apply (Hstep "strength" 8 a _ (six a 8 8 8 8 8));
               [reflexivity | lia | lia | apply insert_six]|].
    etrans; [apply (Hstep "dexterity" 8 b _ (six a b 8 8 8 8));
               [reflexivity | lia | lia | apply insert_six]|].
    etrans; [apply (Hstep "constitution" 8 c _ (six a b c 8 8 8));
               [reflexivity | lia | lia | apply insert_six]|].
    etrans; [apply (Hstep "intelligence" 8 d _ (six a b c d 8 8));
               [reflexivity | lia | lia | apply insert_six]|].
    etrans; [apply (Hstep "wisdom" 8 e _ (six a b c d e 8));
               [reflexivity | lia | lia | apply insert_six]|].
    apply (Hstep "charisma" 8 f _ (six a b c d e f));
      [reflexivity | lia | lia | apply insert_six]. }
  split; [split; [apply Hinv|]|split; [|split]].
  - intros (a & b & c & d & e & f & -> & Hrange). by apply Hreach.
  - intros (a & b & c & d & e & f & -> & Hrange)%Hinv.
    rewrite FormProperties.pointBuyTotal_six.
    apply Forall_cons in Hrange as [Ha Hrange].
    apply Forall_cons in Hrange as [Hb Hrange].
    apply Forall_cons in Hrange as [Hc Hrange].
    apply Forall_cons in Hrange as [Hd Hrange].
    apply Forall_cons in Hrange as [He Hrange].
    apply Forall_cons in Hrange as [Hf _].
    pose proof (pointBuyCostFor_range a Ha).
    pose proof (pointBuyCostFor_range b Hb).
    pose proof (pointBuyCostFor_range c Hc).
    pose proof (pointBuyCostFor_range d Hd).
    pose proof (pointBuyCostFor_range e He).
    pose proof (pointBuyCostFor_range f Hf). lia.
  - apply Hreach. repeat (apply Forall_cons_2; [lia|]). apply Forall_nil_2.
  - unfold all_fifteen. by rewrite FormProperties.pointBuyTotal_six.
Qed.

(* ------------------------------------------------------------------- *)
(** ** Racial bonuses: the Review stage and the stored scores            *)
(* ------------------------------------------------------------------- *)

Lemma bump_all (ks : list string) (o : gmap string Z) (k : string) :
  NoDup ks ->
  fold_left (fun o k => bump k 1 o) ks o !! k
  = if decide (k ∈ ks) then Some (nullish (o !! k) 0 + 1) else o !! k.
Proof.
  intros Hnd. revert o. induction Hnd as [|x ks Hx Hnd IH]; intros o.
  - cbn. by rewrite decide_False by apply not_elem_of_nil.
  - cbn [fold_left]. rewrite IH. unfold bump.
    destruct (decide (k = x)) as [->|Hne].
    + rewrite decide_False by done. rewrite lookup_insert_eq.
      by rewrite decide_True by apply list_elem_of_here.
    + rewrite lookup_insert_ne by done.
      destruct (decide (k ∈ ks)) as [Hin|Hout].
      * by rewrite decide_True by (by apply list_elem_of_further).
      * rewrite decide_False; [done|]. rewrite elem_of_cons. tauto.
Qed.

(** X22.  The Human bonus adds exactly 1 to every score the object holds and
    adds no key, whatever the order in which the keys are visited. *)
Theorem humanBonus_adds_one (o : gmap string Z) :
  humanBonus o = (fun v => v + 1) <$> o.
Proof.
  apply map_eq. intros k. unfold humanBonus.
  rewrite bump_all by apply NoDup_fst_map_to_list.
  rewrite lookup_fmap. destruct (o !! k) as [v|] eqn:E.
  - rewrite decide_True; [done|].
    apply list_elem_of_fmap. exists (k, v). split; [done|].
    by apply elem_of_map_to_list.
  - rewrite decide_False; [done|].
    intros ([k' v] & -> & Hin)%list_elem_of_fmap.
    apply elem_of_map_to_list in Hin. cbn in E. congruence.
Qed.

Lemma standard_base_agree (st : FormState) (keys : list string)
    (acc : gmap string Z) :
  (forall k, k ∈ keys -> is_Some (standardAssigned st !! k)) ->
  fold_left
    (fun base k =>
       match standardAssigned st !! k, abilityAt (abilities st) k with
       | Some v, _ => <[k := v]> base
       | None, Some v => <[k := v]> base
       | None, None => base
       end) keys acc
  = fold_left
      (fun final k =>
         match standardAssigned st !! k with
         | Some v => <[k := v]> final
         | None => final
         end) keys acc.
Proof.
  revert acc. induction keys as [|k keys IH]; intros acc Hall; [done|].
  cbn [fold_left]. destruct (Hall k) as [v Hv]; [apply list_elem_of_here|].
  rewrite Hv. apply IH. intros k' Hk'. apply Hall. by apply list_elem_of_further.
Qed.

(** Before the bonuses, the Review stage starts from the scores a
    submission would store. *)
Lemma review_base (st : FormState) (stored : gmap string Z) :
  match abilityMethod st with
  | standard =>
      if negb (standardAssignedAll st) then None
      else
        Some (fold_left
                (fun final k =>
                   match standardAssigned st !! k with
                   | Some v => <[k := v]> final
                   | None => final
                   end)
                abilityKeys ∅)
  | rolled | manual => Some (abilitiesObject (abilities st))
  | pointbuy =>
      if pointBuyTotal (pointBuyScores st) >? 27 then None
      else Some (pointBuyScores st)
  end = Some stored ->
  match abilityMethod st with
  | standard =>
      fold_left
        (fun base k =>
           match standardAssigned st !! k, abilityAt (abilities st) k with
           | Some v, _ => <[k := v]> base
           | None, Some v => <[k := v]> base
           | None, None => base
           end)
        abilityKeys ∅
  | pointbuy => pointBuyScores st
  | rolled | manual => abilitiesObject (abilities st)
  end = stored.
Proof.
  intros Estored. destruct (abilityMethod st).
  - destruct (standardAssignedAll st) eqn:Eall; [|discriminate].
    cbn [negb] in Estored. injection Estored as <-.
    apply standard_base_agree. intros k Hk.
    destruct (proj1 (FormProperties.standardAssignedAll_spec st) Eall k Hk)
      as (v & -> & _).
    eauto.
  - by injection Estored.
  - destruct (pointBuyTotal (pointBuyScores st) >? 27); [discriminate|].
    by injection Estored.
  - by injection Estored.
Qed.

(** X23.  For a submission that goes through, the scores stored are the ones
    the Review stage showed, except for a Gnome whose subrace is not
    "Rock Gnome": the Review stage then shows no constitution bonus,
    and the stored scores have constitution one higher than shown. *)
Theorem review_shows_stored_abilities
    (validateBasic validateClassTab validateBackgroundTab validateSpeciesTab
       : FormState -> bool * FormState)
    (sp : SpeciesChoice) (st : FormState) (final : gmap string Z) :
  submittedAbilities validateBasic validateClassTab validateBackgroundTab
    validateSpeciesTab sp st = Some final ->
  ((selectedSpecies sp = "Gnome" -> selectedGnomeSubrace sp = "Rock Gnome") ->
   getFinalAbilities sp st = final)
  /\ (selectedSpecies sp = "Gnome" -> selectedGnomeSubrace sp <> "Rock Gnome" ->
      final = bump "constitution" 1 (getFinalAbilities sp st)).
Proof.
  unfold submittedAbilities. intros H.
  destruct (validateBasic st).1; [|discriminate].
  destruct (validateClassTab st).1; [|discriminate].
  destruct (validateBackgroundTab st).1; [|discriminate].
  destruct (validateSpeciesTab st).1; [|discriminate].
  destruct (validateAbilities st).1; [|discriminate].
  unfold negb in H. cbv zeta in H.
  match type of H with
  | mbind _ ?m = _ => destruct m as [stored|] eqn:Estored; [|discriminate]
  end.
  cbn [mbind option_bind] in H. injection H as <-.
  unfold getFinalAbilities. cbv zeta.
  apply review_base in Estored as Ebase.
  rewrite Ebase. clear Ebase Estored.
  destruct (String.eqb_spec (selectedSpecies sp) "Half-Elf") as [E|_];
    [rewrite E; cbn; split; [done | discriminate]|].
  destruct (String.eqb_spec (selectedSpecies sp) "Tiefling") as [E|_];
    [rewrite E; cbn; split; [done | discriminate]|].
  destruct (String.eqb_spec (selectedSpecies sp) "Half-Orc") as [E|_];
    [rewrite E; cbn; split; [done | discriminate]|].
  destruct (String.eqb_spec (selectedSpecies sp) "Human") as [E|_];
    [rewrite E; cbn; split; [done | discriminate]|].
  destruct (String.eqb_spec (selectedSpecies sp) "Halfling") as [E|_];
    [rewrite E; cbn; split; [done | discriminate]|].
  destruct (String.eqb_spec (selectedSpecies sp) "Gnome") as [E|N];
    [|split; [done | intros E; by destruct N]].
  destruct (String.eqb_spec (selectedGnomeSubrace sp) "Rock Gnome")
    as [Erock|Nrock].
  - split; [done | intros _ Hne; by destruct Hne].
  - split; [intros Hrock; by destruct Nrock; apply Hrock | done].
Qed.

(** A Human with point-buy scores 15, 15, 15, 8, 8, 8 is shown, and
    stored with, 16, 16, 16, 9, 9, 9; a Gnome with no subrace is shown
    constitution 15 and stored with 16. *)
Lemma review_shows_stored_abilities_example :
  getFinalAbilities human_choice (pointbuy_form [15; 15; 15; 8; 8; 8])
  = list_to_map (zip abilityKeys [16; 16; 16; 9; 9; 9])
  /\ getFinalAbilities plain_gnome_choice
       (pointbuy_form [15; 15; 15; 8; 8; 8]) !! "constitution" = Some 15
  /\ (submittedAbilities always_valid always_valid always_valid always_valid
        plain_gnome_choice (pointbuy_form [15; 15; 15; 8; 8; 8])
      ≫= (.!! "constitution")) = Some 16.
Proof.
  split; [|split].
  - apply (review_shows_stored_abilities always_valid always_valid
             always_valid always_valid human_choice
             (pointbuy_form [15; 15; 15; 8; 8; 8])); [|discriminate].
    vm_compute. reflexivity.
  - vm_compute. reflexivity.
  - vm_compute. reflexivity.
Defined.

(* ------------------------------------------------------------------- *)
(** ** Going back                                                        *)
(* ------------------------------------------------------------------- *)

(** X24.  "Back" changes nothing but the stage, does nothing on the first
    stage, and pressed five times reaches the first stage from any
    stage.  From the Abilities stage, when the validation passes, "Next"
    followed by "Back" gives the state back with the error message
    cleared; when it fails, "Next" stays on the Abilities stage and
    "Back" then leads to the Species stage with the message kept. *)
Theorem goBack_spec
    (validateBasic validateClassTab validateBackgroundTab validateSpeciesTab
       : FormState -> bool * FormState)
    (st : FormState) :
  let next := goNext validateBasic validateClassTab validateBackgroundTab
                validateSpeciesTab in
  goBack st = setCreationTab (creationTab (goBack st)) st
  /\ (creationTab st = tab_basic -> goBack st = st)
  /\ creationTab (Nat.iter 5 goBack st) = tab_basic
  /\ (creationTab st = tab_abilities ->
      if (validateAbilities st).1
      then creationTab (next st) = tab_review
           /\ goBack (next st) = (accept st).2
      else creationTab (next st) = tab_abilities
           /\ abilitiesError (next st) <> None
           /\ creationTab (goBack (next st)) = tab_species
           /\ abilitiesError (goBack (next st)) = abilitiesError (next st)).
Proof.
  intros next. destruct st as [tab method a sa pb pool err].
  split; [by destruct tab|]. split; [cbn; by intros ->|].
  split; [by destruct tab|].
  cbn [creationTab]. intros ->. subst next. unfold goNext. cbn [creationTab].
  destruct (validateAbilities _) as [ok st'] eqn:Ev.
  unfold validateAbilities in Ev. cbn [abilityMethod] in Ev.
  destruct method;
    repeat match type of Ev with
      | context [if ?b then _ else _] => destruct b
      end;
    injection Ev as <- <-; cbn; done.
Qed.

(* ------------------------------------------------------------------- *)
(** ** Highlighting and validation                                       *)
(* ------------------------------------------------------------------- *)

Lemma ability_keys_values (a : AbilityScores) :
  (forall k, k ∈ abilityKeys ->
     exists v, abilityAt a k = Some v /\ v ∈ abilityValues a)
  /\ (forall v, v ∈ abilityValues a ->
        exists k, k ∈ abilityKeys /\ abilityAt a k = Some v).
Proof.
  destruct a as [a b c d e f]. unfold abilityKeys, abilityValues.
  cbn [strength dexterity constitution intelligence wisdom charisma].
  split.
  - intros k. rewrite !elem_of_cons, elem_of_nil.
    intros [->|[->|[->|[->|[->|[->|[]]]]]]]; eexists;
      (split; [vm_compute; reflexivity|]);
      rewrite !elem_of_cons; tauto.
  - intros v. rewrite !elem_of_cons, elem_of_nil.
    intros [->|[->|[->|[->|[->|[->|[]]]]]]].
    + exists "strength". split; [|vm_compute; reflexivity].
      rewrite !elem_of_cons; tauto.
    + exists "dexterity". split; [|vm_compute; reflexivity].
      rewrite !elem_of_cons; tauto.
    + exists "constitution". split; [|vm_compute; reflexivity].
      rewrite !elem_of_cons; tauto.
    + exists "intelligence". split; [|vm_compute; reflexivity].
      rewrite !elem_of_cons; tauto.
    + exists "wisdom". split; [|vm_compute; reflexivity].
      rewrite !elem_of_cons; tauto.
    + exists "charisma". split; [|vm_compute; reflexivity].
      rewrite !elem_of_cons; tauto.
Qed.

(** When every ability is positive, [getAssignedCounts] counts all six
    values. *)
Lemma getAssignedCounts_positive (st : FormState) :
  Forall (fun v => 0 < v) (abilityValues (abilities st)) ->
  getAssignedCounts st = tally (abilityValues (abilities st)).
Proof.
  unfold getAssignedCounts, tally. generalize (∅ : gmap Z Z).
  induction (abilityValues (abilities st)) as [|v l IH]; intros m Hpos;
    [done|].
  apply Forall_cons in Hpos as [Hv Hpos]. cbn [fold_left].
  destruct (Z.eqb_spec v 0); [lia|]. destruct (Z.gtb_spec v 0); [|lia].
  cbn [negb andb]. by apply IH.
Qed.

(** X25.  Except in point-buy mode, [validateAbilities] passes exactly
    when none of the six ability fields is highlighted as unassigned or
    over-assigned. *)
Theorem highlight_agrees_with_validation (st : FormState) :
  abilityMethod st <> pointbuy ->
  (validateAbilities st).1 = true
  <-> forall k, k ∈ abilityKeys ->
        isStandardUnassigned st k = false
        /\ isRolledUnassigned st k = false
        /\ isRolledOverAssigned st k = false.
Proof.
  intros Hmethod.
  destruct (ability_keys_values (abilities st)) as [Hkv Hvk].
  destruct (abilityMethod st) eqn:Em; [| |done|].
  - (* standard *)
    unfold validateAbilities, isStandardUnassigned, isRolledUnassigned,
      isRolledOverAssigned. rewrite Em. cbn [is_standard is_rolled andb negb].
    destruct (standardAssignedAll st) eqn:Eall; cbn [negb fst reject accept].
    + split; [|done]. intros _ k Hk.
      destruct (proj1 (FormProperties.standardAssignedAll_spec st) Eall k Hk)
        as (v & -> & Hv).
      cbn. by destruct (Z.eqb_spec v 0).
    + split; [done|]. intros Hnone. rewrite <- Eall.
      apply FormProperties.standardAssignedAll_spec. intros k Hk.
      destruct (Hnone k Hk) as [Hs _].
      destruct (standardAssigned st !! k) as [v|]; [|done].
      exists v. split; [done|]. cbn in Hs. by destruct (Z.eqb_spec v 0).
  - (* rolled *)
    rewrite rolled_validation_counts by done.
    unfold isStandardUnassigned, isRolledUnassigned, isRolledOverAssigned,
      getPoolCounts.
    rewrite Em. cbn [is_standard is_rolled andb negb]. cbv zeta. split.
    + intros [Hpos Hle] k Hk. destruct (Hkv k Hk) as (v & -> & Hv).
      rewrite Forall_forall in Hpos. specialize (Hpos v Hv) as Hv0.
      split; [done|]. split; [by destruct (Z.gtb_spec v 0); [|lia]|].
      destruct (Z.eqb_spec v 0); [lia|].
      rewrite getAssignedCounts_positive by (by apply Forall_forall).
      rewrite !tally_lookup. specialize (Hle v).
      rewrite Z.gtb_ltb. apply Z.ltb_ge.
      destruct (count_occ Z.eq_dec (abilityValues (abilities st)) v),
        (count_occ Z.eq_dec (rolledPool st) v); cbn [nullish]; lia.
    + intros Hnone.
      assert (Hpos : Forall (fun v => 0 < v) (abilityValues (abilities st))).
      { apply Forall_forall. intros v Hv. destruct (Hvk v Hv) as (k & Hk & Ek).
        destruct (Hnone k Hk) as (_ & Hu & _). rewrite Ek in Hu.
        by destruct (Z.gtb_spec v 0). }
      split; [exact Hpos|]. intros v.
      destruct (count_occ Z.eq_dec (abilityValues (abilities st)) v)
        as [|n] eqn:Ecount; [lia|].
      assert (Hv : v ∈ abilityValues (abilities st)).
      { apply list_elem_of_In, (count_occ_In Z.eq_dec). lia. }
      destruct (Hvk v Hv) as (k & Hk & Ek).
      destruct (Hnone k Hk) as (_ & _ & Ho). rewrite Ek in Ho.
      rewrite Forall_forall in Hpos. specialize (Hpos v Hv) as Hv0.
      destruct (Z.eqb_spec v 0); [lia|].
      rewrite getAssignedCounts_positive in Ho by (by apply Forall_forall).
      rewrite !tally_lookup, Ecount in Ho.
      rewrite Z.gtb_ltb in Ho. apply Z.ltb_ge in Ho.
      destruct (count_occ Z.eq_dec (rolledPool st) v); cbn [nullish] in Ho;
        lia.
  - (* manual *)
    unfold validateAbilities, isStandardUnassigned, isRolledUnassigned,
      isRolledOverAssigned. rewrite Em. by cbn.
Qed.

(** The over-assigned state that Auto-Assign produced above has
    dexterity highlighted. *)
Lemma highlight_example :
  isRolledOverAssigned
    (rolled_form [15; 12; 11; 10; 9; 8] (mkAbilityScores 15 15 12 11 10 9))
    "dexterity" = true
  /\ (validateAbilities
        (rolled_form [15; 12; 11; 10; 9; 8]
           (mkAbilityScores 15 15 12 11 10 9))).1 = false.
Proof.
  split; [by vm_compute|].
  destruct (validateAbilities
              (rolled_form [15; 12; 11; 10; 9; 8]
                 (mkAbilityScores 15 15 12 11 10 9))).1 eqn:E; [|done].
  destruct (proj1 (highlight_agrees_with_validation _ ltac:(done)) E
              "dexterity") as (_ & _ & Ho).
  - apply (bool_decide_unpack _). by vm_compute.
  - vm_compute in Ho. discriminate.
Defined.

End FormExtras.

(* ===================================================================== *)
(** * The dice roller (src/pages/DiceRoller.tsx)                          *)
(* ===================================================================== *)

Module DiceExtras.
Import Js CharacterSheet DiceRoller JsFacts Samples MoreSamples.

(** The loop appends one roll for each index from [i] up to [count],
    to both lists. *)
Lemma roll_loop_spec (fuel : nat) (random : nat -> Q) (i count sides : Z)
    (rolls allRolls : list Z) :
  0 <= i -> (Z.to_nat (count - i) <= fuel)%nat ->
  let new :=
    (fun k => rollDie (random k) sides)
      <$> seq (Z.to_nat i) (Z.to_nat (count - i)) in
  roll_loop fuel random i count sides rolls allRolls
  = (rolls ++ new, allRolls ++ new).
Proof.
  revert i rolls allRolls.
  induction fuel as [|fuel IH]; intros i rolls allRolls Hi Hfuel; cbn.
  - replace (Z.to_nat (count - i)) with O by lia. cbn.
    by rewrite !app_nil_r.
  - destruct (Z.ltb_spec i count) as [Hlt|Hge].
    + rewrite IH by lia.
      replace (Z.to_nat (count - i)) with (S (Z.to_nat (count - (i + 1))))
        by lia.
      cbn [seq fmap list_fmap]. rewrite <- !app_assoc. cbn.
      by replace (Z.to_nat (i + 1)) with (S (Z.to_nat i)) by lia.
    + replace (Z.to_nat (count - i)) with O by lia. cbn.
      by rewrite !app_nil_r.
Qed.

Lemma sum_bounds (l : list Z) (lo hi acc : Z) :
  Forall (fun v => lo <= v <= hi) l ->
  acc + Z.of_nat (length l) * lo <= fold_left Z.add l acc
  <= acc + Z.of_nat (length l) * hi.
Proof.
  revert acc. induction l as [|x l IH]; intros acc Hall; cbn [fold_left length].
  - lia.
  - apply Forall_cons in Hall as [Hx Hall]. specialize (IH (acc + x) Hall).
    nia.
Qed.
(** X26.  When the expression does not parse, nothing is rolled.  When it
    parses to [count] dice of [sides >= 1] sides and either the roll type
    is normal or [count] is not 1, the roll type is ignored: [count] dice
    are rolled (none for a count of 0), all of them are kept, each lies
    between 1 and [sides], and the total is their sum plus the modifier,
    between [count + modifier] and [count * sides + modifier]. *)
Theorem rollDice_normal (parseDiceExpression : string -> option Parsed)
    (rollType : RollType) (random : nat -> Q) (expr : string) :
  (parseDiceExpression expr = None ->
   rollDice parseDiceExpression rollType random expr = None)
  /\ forall parsed,
       parseDiceExpression expr = Some parsed ->
       0 <= count parsed -> 1 <= sides parsed ->
       (forall k, (0 <= random k)%Q /\ (random k < 1)%Q) ->
       rollType = normal \/ count parsed <> 1 ->
       exists r,
         rollDice parseDiceExpression rollType random expr = Some r
         /\ rollDice parseDiceExpression normal random expr = Some r
         /\ allRolls r = rolls r
         /\ length (rolls r) = Z.to_nat (count parsed)
         /\ Forall (fun v => 1 <= v <= sides parsed) (rolls r)
         /\ total r = fold_left Z.add (rolls r) 0 + modifier parsed
         /\ count parsed + modifier parsed <= total r
            <= count parsed * sides parsed + modifier parsed.
Proof.
  split; [intros Hnone; unfold rollDice; by rewrite Hnone|].
  intros parsed Hparse Hcount Hsides Hrandom Hkind.
  set (new := (fun k => rollDie (random k) (sides parsed))
                <$> seq 0 (Z.to_nat (count parsed))).
  assert (Hloop : roll_loop (Z.to_nat (count parsed)) random 0 (count parsed)
                    (sides parsed) [] [] = (new, new)).
  { rewrite roll_loop_spec by lia. cbn [app]. subst new.
    by replace (count parsed - 0) with (count parsed) by lia. }
  assert (Hnormal : forall kind,
             kind = normal \/ count parsed <> 1 ->
             rollDice parseDiceExpression kind random expr
             = Some (mkRolled new new
                       (fold_left Z.add new 0 + modifier parsed)
                       (pretty (count parsed) +:+ "d"
                        +:+ pretty (sides parsed)
                        +:+ (if modifier parsed =? 0 then ""
                             else (if modifier parsed >? 0 then "+" else "")
                                  +:+ pretty (modifier parsed))))).
  { intros kind Hk. unfold rollDice. rewrite Hparse. cbn [mbind option_bind].
    assert (Econd : (count parsed =? 1)
                    && negb match kind with normal => true | _ => false end
                    = false).
    { destruct Hk as [->|Hne]; [by rewrite andb_false_r|].
      by destruct (Z.eqb_spec (count parsed) 1). }
    rewrite Econd, Hloop. reflexivity. }
  assert (Hlen : length new = Z.to_nat (count parsed))
    by (subst new; by rewrite length_fmap, length_seq).
  assert (Hrange : Forall (fun v => 1 <= v <= sides parsed) new).
  { subst new. apply Forall_fmap, Forall_forall. intros k _. cbn.
    apply SheetProperties.rollDie_range; [apply Hrandom..|lia]. }
  eexists. split; [by apply Hnormal|]. split; [apply Hnormal; by left|].
  cbn [rolls allRolls total]. split; [done|]. split; [done|].
  split; [done|]. split; [done|].
  pose proof (sum_bounds new 1 (sides parsed) 0 Hrange) as Hsum.
  rewrite Hlen in Hsum. lia.
Qed.

(** Two six-sided dice and 3 with the cycling source: the dice show 1
    and 2, the total is 6, also under advantage. *)
Lemma rollDice_normal_example :
  exists r,
    rollDice reads_2d6_plus_3 advantage cycling_source "2d6+3" = Some r
    /\ rolls r = [1; 2] /\ total r = 6 /\ diceType r = "2d6+3".
Proof.
  destruct (rollDice_normal reads_2d6_plus_3 advantage cycling_source "2d6+3")
    as [_ Hroll].
  destruct (Hroll (mkParsed 2 6 3)) as (r & E & _);
    [reflexivity | done | done | | by right |].
  - intros k. unfold cycling_source, Qle, Qlt. cbn.
    pose proof (Nat.mod_upper_bound k 6 ltac:(lia)). lia.
  - exists r. split; [exact E|]. vm_compute in E. injection E as <-.
    by vm_compute.
Defined.

(** X27.  For a single die of [sides >= 1] sides, advantage and disadvantage
    roll it twice: both rolls lie between 1 and [sides], advantage keeps
    the higher and disadvantage the lower, a normal roll is the first of
    the two, and so the three totals are ordered disadvantage <= normal
    <= advantage, all within [1 + modifier, sides + modifier]. *)
Theorem rollDice_advantage (parseDiceExpression : string -> option Parsed)
    (random : nat -> Q) (expr : string) (parsed : Parsed) :
  parseDiceExpression expr = Some parsed ->
  count parsed = 1 -> 1 <= sides parsed ->
  (forall k, (0 <= random k)%Q /\ (random k < 1)%Q) ->
  let first := rollDie (random 0%nat) (sides parsed) in
  let second := rollDie (random 1%nat) (sides parsed) in
  exists ra rd rn,
    rollDice parseDiceExpression advantage random expr = Some ra
    /\ rollDice parseDiceExpression disadvantage random expr = Some rd
    /\ rollDice parseDiceExpression normal random expr = Some rn
    /\ allRolls ra = [first; second] /\ allRolls rd = [first; second]
    /\ 1 <= first <= sides parsed /\ 1 <= second <= sides parsed
    /\ rolls ra = [Z.max first second]
    /\ rolls rd = [Z.min first second]
    /\ rolls rn = [first]
    /\ total rd <= total rn <= total ra
    /\ 1 + modifier parsed <= total rd
    /\ total ra <= sides parsed + modifier parsed.
Proof.
  intros Hparse Hcount Hsides Hrandom first second.
  assert (H1 : 1 <= first <= sides parsed)
    by (apply SheetProperties.rollDie_range; [apply Hrandom..|lia]).
  assert (H2 : 1 <= second <= sides parsed)
    by (apply SheetProperties.rollDie_range; [apply Hrandom..|lia]).
  unfold rollDice. rewrite Hparse. cbn [mbind option_bind]. rewrite Hcount.
  change (1 =? 1) with true. cbn [andb negb Z.to_nat Pos.to_nat Pos.iter_op].
  cbn [roll_loop]. change (0 <? 1) with true. cbv iota.
  change (0 + 1 <? 1) with false. cbv iota. cbn [app Z.to_nat].
  fold first second.
  eexists _, _, _. split; [reflexivity|]. split; [reflexivity|].
  split; [reflexivity|]. cbn [rolls allRolls total fold_left].
  change (rollDie (random (Z.to_nat 0)) (sides parsed)) with first.
  cbn [app fold_left]. repeat split; try done; lia.
Qed.

(** A d20 with modifier 5 and the cycling source: the two rolls are 1
    and 4, so advantage gives 9 and disadvantage 6. *)
Lemma rollDice_advantage_example :
  exists ra rd,
    rollDice reads_1d20_plus_5 advantage cycling_source "1d20+5" = Some ra
    /\ rollDice reads_1d20_plus_5 disadvantage cycling_source "1d20+5"
       = Some rd
    /\ allRolls ra = [1; 4] /\ total ra = 9 /\ total rd = 6.
Proof.
  destruct (rollDice_advantage reads_1d20_plus_5 cycling_source "1d20+5"
              (mkParsed 1 20 5))
    as (ra & rd & rn & Ea & Ed & _); [reflexivity | done | done | |].
  - intros k. unfold cycling_source, Qle, Qlt. cbn.
    pose proof (Nat.mod_upper_bound k 6 ltac:(lia)). lia.
  - exists ra, rd. split; [exact Ea|]. split; [exact Ed|].
    vm_compute in Ea, Ed. injection Ea as <-. injection Ed as <-.
    by vm_compute.
Defined.

End DiceExtras.
